(** * NailXR export pipeline: a shallow embedding of [scripts/training/export_onnx.py]

    The script exports a trained segmentation network to ONNX and then runs
    an optimisation pipeline over the exported file: graph optimisation with a
    fallback chain, dynamic and static INT8 quantisation, verification, a
    comparison benchmark and deployment.

    The Python code is effectful: it reads and writes files, calls into
    external packages (onnx, onnxruntime, onnxoptimizer, PIL, numpy, torch),
    reads the clock and raises exceptions.  The embedding keeps this shape:

    - a [world] holds the file system, a call counter and the log of calls
      made into the external packages;
    - computations live in a state-and-exception monad [M] in which the world
      survives a raised exception (files written before a [raise] stay);
    - the external packages are the fields of a record [Env]: each field says
      what a library call returns (or raises) on the data it is given. *)

From Stdlib Require Import Ascii QArith Qcanon.
From stdpp Require Import base numbers strings list sorting gmap.

Open Scope string_scope.
Open Scope list_scope.
Open Scope nat_scope.

(** ** Python exceptions *)

(** The exception classes that appear in the script or are raised by the
    library calls it makes.  All of them derive from [Exception]; signals
    deriving only from [BaseException] (keyboard interrupt, interpreter exit)
    are outside the model. *)
Inductive exn_class :=
| ImportError
| AssertionError
| ZeroDivisionError
| FileNotFoundError
| SameFileError
| IndexError
| ValueError
| RuntimeError.

#[global] Instance exn_class_eq_dec : EqDecision exn_class.
Proof. solve_decision. Defined.

Record exn := Exn { exn_cls : exn_class; exn_msg : string }.

#[global] Instance exn_eq_dec : EqDecision exn.
Proof. solve_decision. Defined.

(** [except ImportError] *)
Definition is_ImportError (e : exn) : bool := bool_decide (exn_cls e = ImportError).

(** [except Exception] *)
Definition is_Exception (e : exn) : bool := true.

Inductive result (A : Type) :=
| Ret (a : A)
| Raise (e : exn).
Arguments Ret {A} a.
Arguments Raise {A} e.

Definition raises {A} (r : result A) : bool :=
  match r with Ret _ => false | Raise _ => true end.

(** ** Values *)

(** File contents are byte strings. *)
Abbreviation bytes := string (only parsing).

(** A float: finite values are embedded in the rationals (rounding is not
    modelled); NaN and the infinities are one value, which is all the range
    assertion of the verifier can tell about them. *)
Inductive float :=
| Finite (q : Qc)
| NonFinite.

(** A numpy array: its shape and its elements in row-major order. *)
Record tensor := Tensor { shape : list nat; values : list float }.

(** One calibration sample, the dict [{'input': arr}]. *)
Record sample := Sample { input : tensor }.

Inductive quant_format := QDQ | QOperator.
Inductive quant_type := QInt8 | QUInt8.

#[global] Instance quant_format_eq_dec : EqDecision quant_format.
Proof. solve_decision. Defined.

(** The keyword arguments of [quantize_static] other than the paths and the
    reader. [None] stands for an argument left at the library's default. *)
Record quant_config := QuantConfig {
  quant_fmt : quant_format;
  weight_type : quant_type;
  activation_type : option quant_type;
  calibrate_minmax : bool;
  extra_options : option (bool * bool)  (* WeightSymmetric, ActivationSymmetric *)
}.

(** ** The calibration sample source: the state and the two methods of
    [class CalibrationDataReader] that read it *)

Module CalibrationDataReader.

Record t := Make {
  image_size : nat;
  num_samples : nat;
  current : nat;
  data : list sample
}.

Definition set_data (self : t) (d : list sample) : t :=
  Make (image_size self) (num_samples self) (current self) d.

(** [get_next] hands out the stored dict itself, the same object at every
    replay; nothing in the script writes to a stored sample, so samples are
    values here. *)
Definition get_next (self : t) : option sample * t :=
  if bool_decide (length (data self) ≤ current self) then (None, self)
  else (data self !! current self,
        Make (image_size self) (num_samples self) (current self + 1) (data self)).

Definition rewind (self : t) : t :=
  Make (image_size self) (num_samples self) 0 (data self).

(** What a consumer sees when it calls [get_next] until it gets [None];
    [fuel] bounds the number of calls. The result is [None] when the fuel
    runs out before the end of the sequence. *)
Fixpoint iterate (fuel : nat) (self : t) : option (list sample * t) :=
  match fuel with
  | O => None
  | S fuel' =>
      match get_next self with
      | (None, self') => Some ([], self')
      | (Some x, self') =>
          match iterate fuel' self' with
          | Some (xs, self'') => Some (x :: xs, self'')
          | None => None
          end
      end
  end.

(** [rounds] times: [rewind], then read to the end. The sequences read. *)
Fixpoint replay (rounds : nat) (self : t) : option (list (list sample)) :=
  match rounds with
  | O => Some []
  | S rounds' =>
      match iterate (S (length (data self))) (rewind self) with
      | Some (xs, self') =>
          match replay rounds' self' with
          | Some xss => Some (xs :: xss)
          | None => None
          end
      | None => None
      end
  end.

(** [k] calls of [get_next], as a library that reads the samples makes them. *)
Fixpoint read (k : nat) (self : t) : t :=
  match k with
  | O => self
  | S k' => read k' (get_next self).2
  end.

(** The samples still to come. *)
Definition remaining (self : t) : list sample := drop (current self) (data self).

End CalibrationDataReader.

(** ** The world *)

(** The calls that the properties below talk about: the entry into a stage
    of the pipeline with the paths it is given, and the calls into external
    code. A call of [quantize_static] is logged with the position of the
    reader when the call starts and with whether the call returned. *)
Inductive event :=
| EvStage (name : string) (src dst : string)
| EvOrtOptimize (src dst : string)
| EvOnnxOptimizer (src dst : string)
| EvCopy (src dst : string)
| EvQuantizeDynamic (src dst : string)
| EvQuantPreProcess (src dst : string)
| EvQuantizeStatic (fmt : quant_format) (src dst : string) (cursor : nat) (returned : bool)
| EvRewind
| EvCheckModel (path : string)
| EvSessionRun (path : string)
| EvSimilarity (name : string)
| EvRemove (path : string).

#[global] Instance event_eq_dec : EqDecision event.
Proof. solve_decision. Defined.

Record world := World {
  fs : gmap string string;              (* path -> content of the regular file there *)
  heap : list CalibrationDataReader.t;  (* the reader objects, by reference *)
  tick : nat;                           (* clock readings and random draws so far *)
  trace : list event                    (* calls made so far, oldest first *)
}.

(** ** The monad *)

Definition M (A : Type) : Type := world → result A * world.

#[global] Instance M_ret : MRet M := λ A a w, (Ret a, w).
#[global] Instance M_bind : MBind M := λ A B f m w,
  match m w with
  | (Ret a, w') => f a w'
  | (Raise e, w') => (Raise e, w')
  end.

#[global] Instance M_fmap : FMap M := λ A B f m w,
  match m w with
  | (Ret a, w') => (Ret (f a), w')
  | (Raise e, w') => (Raise e, w')
  end.

Definition raise {A} (e : exn) : M A := λ w, (Raise e, w).

(** [try: body except <catches> as e: handler e] *)
Definition try_except {A} (body : M A) (catches : exn → bool) (handler : exn → M A) : M A :=
  λ w, match body w with
       | (Ret a, w') => (Ret a, w')
       | (Raise e, w') => if catches e then handler e w' else (Raise e, w')
       end.

(** Nothing to do. *)
Definition skip : M unit := mret ().

Definition lift_result {A} (r : result A) : M A := λ w, (r, w).

Definition emit (ev : event) : M unit :=
  λ w, (Ret (), World (fs w) (heap w) (tick w) (trace w ++ [ev])).

Definition get_fs : M (gmap string string) := λ w, (Ret (fs w), w).

Definition put_fs (f : gmap string string) : M unit :=
  λ w, (Ret (), World f (heap w) (tick w) (trace w)).

(** Returns the counter and advances it. *)
Definition next_tick : M nat :=
  λ w, (Ret (tick w), World (fs w) (heap w) (S (tick w)) (trace w)).

(** A new object on the heap; its reference. *)
Definition new_object (r : CalibrationDataReader.t) : M nat :=
  λ w, (Ret (length (heap w)), World (fs w) (heap w ++ [r]) (tick w) (trace w)).

Definition deref (ref : nat) : M CalibrationDataReader.t :=
  λ w, match heap w !! ref with
       | Some r => (Ret r, w)
       | None => (Raise (Exn RuntimeError "dangling reference"), w)
       end.

Definition assign (ref : nat) (r : CalibrationDataReader.t) : M unit :=
  λ w, (Ret (), World (fs w) (<[ref := r]> (heap w)) (tick w) (trace w)).

(** ** Python's [str] and [os] helpers *)

Definition is_prefix (p s : string) : bool :=
  bool_decide (String.substring 0 (String.length p) s = p).

(** [s.replace(old, new)] for a non-empty [old]: the occurrences of [old] are
    replaced left to right, without overlap. [skip] counts the characters of an
    occurrence that are still to be dropped. *)
Fixpoint replace_from (old new : string) (skip : nat) (s : string) : string :=
  match s with
  | EmptyString => EmptyString
  | String c s' =>
      match skip with
      | S k => replace_from old new k s'
      | O =>
          if is_prefix old s
          then new +:+ replace_from old new (String.length old - 1) s'
          else String c (replace_from old new 0 s')
      end
  end.

Definition str_replace (s old new : string) : string := replace_from old new 0 s.

(** [os.path.exists] *)
Definition os_path_exists (path : string) : M bool :=
  f ← get_fs; mret (bool_decide (is_Some (f !! path))).

(** [os.path.getsize], in bytes *)
Definition os_path_getsize (path : string) : M nat :=
  f ← get_fs;
  match f !! path with
  | Some content => mret (String.length content)
  | None => raise (Exn FileNotFoundError path)
  end.

(** [os.remove] *)
Definition os_remove (path : string) : M unit :=
  f ← get_fs;
  match f !! path with
  | Some _ => emit (EvRemove path);; put_fs (delete path f)
  | None => raise (Exn FileNotFoundError path)
  end.

Definition write_file (path : string) (content : bytes) : M unit :=
  f ← get_fs; put_fs (<[path := content]> f).

(** [shutil.copy2]: content (and metadata) of [src] copied to [dst]. *)
Definition shutil_copy2 (src dst : string) : M unit :=
  emit (EvCopy src dst);;
  f ← get_fs;
  match f !! src with
  | None => raise (Exn FileNotFoundError src)
  | Some content =>
      if bool_decide (src = dst) then raise (Exn SameFileError src)
      else put_fs (<[dst := content]> f)
  end.

(** [n / (1024 * 1024)]: a size in megabytes. *)
Definition megabytes (n : nat) : Qc := (Qc_of_Z (Z.of_nat n) / Qc_of_Z 1048576)%Qc.

(** Float division; Python raises on a zero divisor. *)
Definition py_div (a b : Qc) : M Qc :=
  if bool_decide (b = 0%Qc) then raise (Exn ZeroDivisionError "float division by zero")
  else mret (a / b)%Qc.

(** [str.lower], on ASCII letters *)
Definition ascii_lower (c : ascii) : ascii :=
  let n := nat_of_ascii c in
  if bool_decide (65 ≤ n ≤ 90) then ascii_of_nat (n + 32) else c.

Fixpoint str_lower (s : string) : string :=
  match s with
  | EmptyString => EmptyString
  | String c s' => String (ascii_lower c) (str_lower s')
  end.

(** The text before and after the last occurrence of a character. *)
Fixpoint rsplit_at (sep : ascii) (s : string) : option (string * string) :=
  match s with
  | EmptyString => None
  | String c s' =>
      match rsplit_at sep s' with
      | Some (before, after) => Some (String c before, after)
      | None => if bool_decide (c = sep) then Some (EmptyString, s') else None
      end
  end.

Fixpoint only_dots (s : string) : bool :=
  match s with
  | EmptyString => true
  | String c s' => bool_decide (c = "."%char) && only_dots s'
  end.

(** [os.path.splitext(p)[1]]: the extension starts at the last dot of the
    last path component, unless only dots precede it there. *)
Definition splitext_ext (p : string) : string :=
  match rsplit_at "." p with
  | None => ""
  | Some (before, after) =>
      match rsplit_at "/" after with
      | Some _ => ""
      | None =>
          let name := match rsplit_at "/" before with
                      | Some (_, n) => n
                      | None => before
                      end in
          if only_dots name then "" else String "." after
      end
  end.

Definition ends_with_slash (s : string) : bool :=
  match rsplit_at "/" s with
  | Some (_, EmptyString) => true
  | _ => false
  end.

(** [os.path.join(a, b)] *)
Definition os_path_join (a b : string) : string :=
  if is_prefix "/" b then b
  else if bool_decide (a = "") || ends_with_slash a then a +:+ b
  else a +:+ "/" +:+ b.

(** [sorted] on strings *)
Definition sorted (l : list string) : list string :=
  merge_sort (λ a b, Is_true (String.leb a b)) l.

(** ** The external packages *)

(** What the library calls of the script compute.  A call that reads a file
    is given the content found at the path ([None] when there is no file); a
    call that writes a file returns the content it writes, and the embedding
    stores it at the path the script passed.  A call that raises writes
    nothing. *)
Record Env := {
  (** the modules that [import] finds *)
  importable : string → bool;
  (** [ort.InferenceSession(input, sess_options)] with
      [graph_optimization_level = ORT_ENABLE_ALL] and
      [optimized_model_filepath] set: the optimised graph it saves *)
  ort_optimize : option bytes → result bytes;
  (** [onnx.load] *)
  onnx_load : option bytes → result bytes;
  (** [onnx.checker.check_model] *)
  onnx_check_model : bytes → result unit;
  (** reading [model.ir_version], [model.opset_import[0].version] and the
      declared shapes of the graph, which [verify_onnx] prints *)
  onnx_model_info : bytes → result unit;
  (** [onnxoptimizer.optimize(model, passes)] *)
  onnxoptimizer_optimize : bytes → list string → result bytes;
  (** [quantize_dynamic(input, output, weight_type)] *)
  quantize_dynamic : option bytes → quant_type → result bytes;
  (** [quant_pre_process(input_model_path, output_model_path)] *)
  quant_pre_process : option bytes → result bytes;
  (** [quantize_static]: given the configuration, the input graph and the
      samples the reader still holds, the number of [get_next] calls it makes
      and the quantised graph it saves *)
  quantize_static : quant_config → option bytes → list sample → nat * result bytes;
  (** [ort.InferenceSession(path, providers=['CPUExecutionProvider'])] *)
  ort_load : option bytes → result unit;
  (** [session.run(None, {'input': x})] on the graph of the session; the
      number is the current tick, so that two runs may differ *)
  session_run : bytes → nat → tensor → result (list tensor);
  (** [time.time()], in seconds, at a tick *)
  clock : nat → Qc;
  (** the elements drawn by [np.random.rand] / [np.random.randn] for an array
      of the given shape, at a tick *)
  random_values : nat → list nat → list float;
  (** [(arr - mean) / std] with the ImageNet statistics *)
  normalize : tensor → tensor;
  (** [os.path.isdir] and [os.listdir] on the calibration directory, which
      the pipeline only reads *)
  isdir : string → bool;
  listdir : string → result (list string);
  (** [PILImage.open(path).convert('RGB')], resized to the given side, as a
      [(1, 3, H, W)] array scaled to [0, 1] *)
  load_image : string → nat → result tensor;
  (** cosine similarity and mean squared error of two outputs, formatted *)
  similarity_metrics : tensor → tensor → result (string * string);
  (** building the network, [torch.load] and [load_state_dict]: the model
      of a checkpoint path and feature widths *)
  torch_load : string → list nat → result string;
  (** [torch.onnx.export] of a model at a resolution and opset version *)
  torch_onnx_export : string → nat → nat → result bytes;
  (** [json.dump] of the frontend configuration for a model path, a
      resolution and a file size *)
  config_json : string → nat → Qc → bytes
}.

Section Pipeline.

Context (env : Env).

(** [import name]; [from name import ...] *)
Definition py_import (name : string) : M unit :=
  if importable env name then mret ()
  else raise (Exn ImportError ("No module named " +:+ name)).

(** ** Graph optimisation: [optimize_graph] *)

Definition ort_optimizing_session (input_path output_path : string) : M unit :=
  emit (EvOrtOptimize input_path output_path);;
  f ← get_fs;
  optimized ← lift_result (ort_optimize env (f !! input_path));
  write_file output_path optimized.

Definition onnxoptimizer_passes : list string :=
  [ "eliminate_deadend"; "eliminate_identity"; "eliminate_nop_dropout";
    "eliminate_nop_monotone_argmax"; "eliminate_nop_pad"; "eliminate_nop_transpose";
    "eliminate_unused_initializer"; "extract_constant_to_initializer";
    "fuse_add_bias_into_conv"; "fuse_bn_into_conv"; "fuse_consecutive_concats";
    "fuse_consecutive_squeezes"; "fuse_consecutive_transposes";
    "fuse_matmul_add_bias_into_gemm"; "fuse_pad_into_conv"; "nop" ].

(** The body of the first [try]. *)
Definition optimize_with_ort (input_path output_path : string) : M bool :=
  py_import "onnxruntime";;
  ort_optimizing_session input_path output_path;;
  original_size ← os_path_getsize input_path;
  optimized_size ← os_path_getsize output_path;
  mret true.

(** The body of the second [try]. *)
Definition optimize_with_onnxoptimizer (input_path output_path : string) : M bool :=
  py_import "onnx";;
  py_import "onnxoptimizer";;
  emit (EvOnnxOptimizer input_path output_path);;
  f ← get_fs;
  model ← lift_result (onnx_load env (f !! input_path));
  optimized_model ← lift_result (onnxoptimizer_optimize env model onnxoptimizer_passes);
  write_file output_path optimized_model;;
  original_size ← os_path_getsize input_path;
  optimized_size ← os_path_getsize output_path;
  mret true.

(** A [try] whose body ends in [return]: [Some v] when the body returned [v],
    [None] when the handler ran and control goes on after the statement. *)
Definition try_return {A} (body : M A) (catches : exn → bool) : M (option A) :=
  try_except (Some <$> body) catches (λ _, mret None).

Definition optimize_graph (input_path output_path : string) : M bool :=
  emit (EvStage "optimize_graph" input_path output_path);;
  r ← try_return (optimize_with_ort input_path output_path) is_Exception;
  match r with
  | Some b => mret b
  | None =>
      try_except (optimize_with_onnxoptimizer input_path output_path)
        is_ImportError
        (λ _, shutil_copy2 input_path output_path;; mret false)
  end.

(** ** Building the calibration sample source *)

Definition img_extensions : list string := [".jpg"; ".jpeg"; ".png"; ".webp"].

(** The loop of [_load_from_directory]: a file that fails to load is skipped. *)
Fixpoint load_images (self : CalibrationDataReader.t) (image_files : list string)
    : M CalibrationDataReader.t :=
  match image_files with
  | [] => mret self
  | img_path :: rest =>
      self' ← try_except
                (arr ← lift_result
                         (load_image env img_path (CalibrationDataReader.image_size self));
                 mret (CalibrationDataReader.set_data self
                         (CalibrationDataReader.data self ++ [Sample (normalize env arr)])))
                is_Exception
                (λ _, mret self);
      load_images self' rest
  end.

Definition _load_from_directory (self : CalibrationDataReader.t) (directory : string)
    : M CalibrationDataReader.t :=
  py_import "PIL";;
  names ← lift_result (listdir env directory);
  let image_files :=
    take (CalibrationDataReader.num_samples self)
      (sorted (os_path_join directory <$>
                 filter (λ f, str_lower (splitext_ext f) ∈ img_extensions) names)) in
  load_images self image_files.

(** The loop of [_generate_synthetic], [n] iterations to go. *)
Fixpoint generate_samples (self : CalibrationDataReader.t) (n : nat)
    : M CalibrationDataReader.t :=
  match n with
  | O => mret self
  | S n' =>
      k ← next_tick;
      let dims := [1; 3; CalibrationDataReader.image_size self;
                   CalibrationDataReader.image_size self] in
      let arr := Tensor dims (random_values env k dims) in
      generate_samples
        (CalibrationDataReader.set_data self
           (CalibrationDataReader.data self ++ [Sample (normalize env arr)])) n'
  end.

Definition _generate_synthetic (self : CalibrationDataReader.t) : M CalibrationDataReader.t :=
  generate_samples self (CalibrationDataReader.num_samples self).

(** [calibration_dir and os.path.isdir(calibration_dir)]: [None] and the empty
    string are false in a condition. *)
Definition use_directory (calibration_dir : option string) : option string :=
  match calibration_dir with
  | Some dir => if negb (bool_decide (dir = "")) && isdir env dir then Some dir else None
  | None => None
  end.

(** [CalibrationDataReader.__init__] *)
Definition CalibrationDataReader__init__ (image_size : nat) (calibration_dir : option string)
    (num_samples : nat) : M CalibrationDataReader.t :=
  let self := CalibrationDataReader.Make image_size num_samples 0 [] in
  match use_directory calibration_dir with
  | Some dir => _load_from_directory self dir
  | None => _generate_synthetic self
  end.

(** ** Quantisation: [quantize_model] and [static_quantize_model] *)

(** A [try] whose handler ends in [return]: [inl a] when the body completed
    with [a], [inr v] when the handler returned [v] from the function. *)
Definition try_or_return {A B} (body : M A) (catches : exn → bool) (v : B) : M (A + B) :=
  try_except (inl <$> body) catches (λ _, mret (inr v)).

(** [(1 - quantized_size / original_size) * 100] *)
Definition size_reduction (original_size quantized_size : Qc) : M Qc :=
  ratio ← py_div quantized_size original_size;
  mret ((1 - ratio) * Qc_of_Z 100)%Qc.

(** The sizes before and after, and the reduction, as the two quantisers
    print them. *)
Definition report_size_reduction (input_path output_path : string) : M unit :=
  original_size ← megabytes <$> os_path_getsize input_path;
  quantized_size ← megabytes <$> os_path_getsize output_path;
  reduction ← size_reduction original_size quantized_size;
  skip.

Definition quantize_model (input_path output_path : string) : M bool :=
  emit (EvStage "quantize_model" input_path output_path);;
  r ← try_or_return (py_import "onnxruntime.quantization") is_ImportError false;
  match r with
  | inr b => mret b
  | inl _ =>
      emit (EvQuantizeDynamic input_path output_path);;
      f ← get_fs;
      quantized ← lift_result (quantize_dynamic env (f !! input_path) QUInt8);
      write_file output_path quantized;;
      report_size_reduction input_path output_path;;
      mret true
  end.

(** A call of [quantize_static] on the reader object [reader]: the library
    reads samples from the object, which keeps its position also when the call
    raises. *)
Definition call_quantize_static (cfg : quant_config) (model_input model_output : string)
    (reader : nat) : M unit :=
  r ← deref reader;
  f ← get_fs;
  let '(k, outcome) :=
    quantize_static env cfg (f !! model_input) (CalibrationDataReader.remaining r) in
  emit (EvQuantizeStatic (quant_fmt cfg) model_input model_output
          (CalibrationDataReader.current r) (negb (raises outcome)));;
  assign reader (CalibrationDataReader.read k r);;
  quantized ← lift_result outcome;
  write_file model_output quantized.

(** [calibration_reader.rewind()] *)
Definition call_rewind (reader : nat) : M unit :=
  r ← deref reader;
  emit EvRewind;;
  assign reader (CalibrationDataReader.rewind r).

Definition qdq_config : quant_config :=
  QuantConfig QDQ QInt8 (Some QUInt8) true (Some (true, false)).

Definition qoperator_config : quant_config :=
  QuantConfig QOperator QUInt8 None false None.

Definition preprocessed_path_of (input_path : string) : string :=
  str_replace input_path ".onnx" "_preprocessed.onnx".

(** The first [try] of [static_quantize_model]: the path of the graph that
    the quantiser is to read. *)
Definition preprocess_graph (input_path : string) : M string :=
  try_except
    (py_import "onnxruntime.quantization.preprocess";;
     let preprocessed_path := preprocessed_path_of input_path in
     emit (EvQuantPreProcess input_path preprocessed_path);;
     f ← get_fs;
     preprocessed ← lift_result (quant_pre_process env (f !! input_path));
     write_file preprocessed_path preprocessed;;
     mret preprocessed_path)
    is_Exception
    (λ _, mret input_path).

(** The second [try]: format QDQ, and in its handler format QOperator. *)
Definition quantize_with_fallback (quant_input output_path : string)
    (calibration_reader : nat) : M unit :=
  try_except
    (call_quantize_static qdq_config quant_input output_path calibration_reader)
    is_Exception
    (λ e,
       call_rewind calibration_reader;;
       call_quantize_static qoperator_config quant_input output_path calibration_reader).

(** The statements under the comment [Cleanup preprocessed file]. *)
Definition remove_preprocessed (input_path : string) : M unit :=
  let preprocessed_path := preprocessed_path_of input_path in
  ex ← os_path_exists preprocessed_path;
  if ex : bool then os_remove preprocessed_path else skip.

Definition static_quantize_model (input_path output_path : string) (image_size : nat)
    (calibration_dir : option string) (calibration_samples : nat) : M bool :=
  emit (EvStage "static_quantize_model" input_path output_path);;
  r ← try_or_return (py_import "onnxruntime.quantization") is_ImportError false;
  match r with
  | inr b => mret b
  | inl _ =>
      calibration_reader ←
        (CalibrationDataReader__init__ image_size calibration_dir calibration_samples
           ≫= new_object);
      quant_input ← preprocess_graph input_path;
      quantize_with_fallback quant_input output_path calibration_reader;;
      remove_preprocessed input_path;;
      report_size_reduction input_path output_path;;
      mret true
  end.

(** ** Verification: [verify_onnx] *)

Definition fmin (a b : float) : float :=
  match a, b with
  | Finite x, Finite y => Finite (if decide (x ≤ y)%Qc then x else y)
  | _, _ => NonFinite
  end.

Definition fmax (a b : float) : float :=
  match a, b with
  | Finite x, Finite y => Finite (if decide (x ≤ y)%Qc then y else x)
  | _, _ => NonFinite
  end.

(** [arr.min()] and [arr.max()]: numpy raises on an array without elements. *)
Definition np_min (arr : tensor) : M float :=
  match values arr with
  | [] => raise (Exn ValueError "zero-size array to reduction operation minimum")
  | v :: vs => mret (foldl fmin v vs)
  end.

Definition np_max (arr : tensor) : M float :=
  match values arr with
  | [] => raise (Exn ValueError "zero-size array to reduction operation maximum")
  | v :: vs => mret (foldl fmax v vs)
  end.

(** [x >= 0] and [x <= 1] on floats; false on NaN. *)
Definition ge_zero (x : float) : bool :=
  match x with Finite q => bool_decide (0 ≤ q)%Qc | NonFinite => false end.

Definition le_one (x : float) : bool :=
  match x with Finite q => bool_decide (q ≤ 1)%Qc | NonFinite => false end.

Definition py_assert (cond : bool) (msg : string) : M unit :=
  if cond then mret () else raise (Exn AssertionError msg).

(** [np.random.randn(1, 3, S, S).astype(np.float32)] for the given dimensions *)
Definition np_random (dims : list nat) : M tensor :=
  k ← next_tick;
  mret (Tensor dims (random_values env k dims)).

(** [time.time()] *)
Definition time_time : M Qc :=
  k ← next_tick;
  mret (clock env k).

(** [ort.InferenceSession(path, providers=['CPUExecutionProvider'])]: the
    session holds the graph read from the file. *)
Definition ort_InferenceSession (path : string) : M bytes :=
  f ← get_fs;
  lift_result (ort_load env (f !! path));;
  mret (default "" (f !! path)).

(** [session.run(None, {'input': x})] *)
Definition call_session_run (path : string) (session : bytes) (x : tensor) : M (list tensor) :=
  k ← next_tick;
  emit (EvSessionRun path);;
  lift_result (session_run env session k x).

(** [for _ in range(n): outputs = session.run(...)], with the value of
    [outputs] before the loop. *)
Fixpoint run_repeatedly (n : nat) (path : string) (session : bytes) (x : tensor)
    (outputs : option (list tensor)) : M (option (list tensor)) :=
  match n with
  | O => mret outputs
  | S n' =>
      o ← call_session_run path session x;
      run_repeatedly n' path session x (Some o)
  end.

(** [outputs[0]] *)
Definition first_output (outputs : list tensor) : M tensor :=
  match outputs with
  | o :: _ => mret o
  | [] => raise (Exn IndexError "list index out of range")
  end.

(** The range of the output is printed, then come the two assertions. *)
Definition check_output (output : tensor) (image_size : nat) : M unit :=
  lo ← np_min output;
  hi ← np_max output;
  py_assert (ge_zero lo && le_one hi) "Output not in [0,1] range!";;
  py_assert (bool_decide (shape output = [1; 1; image_size; image_size]))
    "Unexpected output shape".

Definition verify_onnx (onnx_path : string) (image_size : nat) : M bool :=
  r ← try_or_return (py_import "onnx";; py_import "onnxruntime") is_ImportError true;
  match r with
  | inr b => mret b
  | inl _ =>
      f ← get_fs;
      model ← lift_result (onnx_load env (f !! onnx_path));
      emit (EvCheckModel onnx_path);;
      lift_result (onnx_check_model env model);;
      lift_result (onnx_model_info env model);;
      session ← ort_InferenceSession onnx_path;
      dummy_input ← np_random [1; 3; image_size; image_size];
      outputs ← call_session_run onnx_path session dummy_input;
      output ← first_output outputs;
      check_output output image_size;;
      let num_runs := 50 in
      start ← time_time;
      run_repeatedly num_runs onnx_path session dummy_input None;;
      stop ← time_time;
      let elapsed := (stop - start)%Qc in
      let avg_time := (elapsed / Qc_of_Z 50 * Qc_of_Z 1000)%Qc in
      fps ← py_div (Qc_of_Z 1000) avg_time;
      mret true
  end.

(** ** Comparison: [compare_models] *)

(** One entry of [results]. *)
Record report_row := ReportRow {
  row_name : string;
  size_mb : Qc;
  avg_ms : Qc;
  fps : Qc;
  similarity : string;
  mse : string
}.

(** The body of the [try] in the loop of [compare_models]: the entry for the
    variant and the reference output after it. *)
Definition measure_variant (name path : string) (file_size : Qc) (test_input : tensor)
    (num_runs : nat) (reference_output : option tensor) : M (report_row * option tensor) :=
  session ← ort_InferenceSession path;
  run_repeatedly 5 path session test_input None;;
  start ← time_time;
  outputs ← run_repeatedly num_runs path session test_input None;
  stop ← time_time;
  let elapsed := (stop - start)%Qc in
  per_run ← py_div elapsed (Qc_of_Z (Z.of_nat num_runs));
  let avg_ms := (per_run * Qc_of_Z 1000)%Qc in
  fps ← py_div (Qc_of_Z 1000) avg_ms;
  output ← match outputs with
           | Some o => first_output o
           | None => raise (Exn RuntimeError "local variable 'outputs' referenced before assignment")
           end;
  match reference_output with
  | None =>
      mret (ReportRow name file_size avg_ms fps "reference" "reference", Some output)
  | Some ref =>
      emit (EvSimilarity name);;
      '(cos_sim, mse_val) ← lift_result (similarity_metrics env ref output);
      mret (ReportRow name file_size avg_ms fps cos_sim mse_val, reference_output)
  end.

(** The entry written by the [except] branch. *)
Definition error_row (name : string) (file_size : Qc) (e : exn) : report_row :=
  ReportRow name file_size (Qc_of_Z (-1)) (Qc_of_Z (-1)) ("error: " +:+ exn_msg e) "—".

(** The loop over [model_paths.items()]. *)
Fixpoint compare_loop (items : list (string * string)) (test_input : tensor) (num_runs : nat)
    (reference_output : option tensor) (results : list report_row) : M (list report_row) :=
  match items with
  | [] => mret results
  | (name, path) :: rest =>
      ex ← os_path_exists path;
      if negb ex then compare_loop rest test_input num_runs reference_output results
      else
        file_size ← megabytes <$> os_path_getsize path;
        '(row, reference_output') ←
          try_except
            (measure_variant name path file_size test_input num_runs reference_output)
            is_Exception
            (λ e, mret (error_row name file_size e, reference_output));
        compare_loop rest test_input num_runs reference_output' (results ++ [row])
  end.

(** The summary printed after the table. *)
Definition print_summary (results : list report_row) : M unit :=
  match head results, last results with
  | Some first, Some final =>
      if bool_decide (2 ≤ length results)
         && bool_decide (0 < avg_ms first)%Qc && bool_decide (0 < avg_ms final)%Qc
      then
        speedup ← py_div (avg_ms first) (avg_ms final);
        reduction ← size_reduction (size_mb first) (size_mb final);
        skip
      else skip
  | _, _ => skip
  end.

(** The function prints its report and returns nothing; the embedding
    returns the entries of the report. *)
Definition compare_models (model_paths : list (string * string)) (image_size num_runs : nat)
    : M (list report_row) :=
  r ← try_or_return (py_import "onnxruntime") is_ImportError ([] : list report_row);
  match r with
  | inr rows => mret rows
  | inl _ =>
      test_input ← np_random [1; 3; image_size; image_size];
      results ← compare_loop model_paths test_input num_runs None [];
      print_summary results;;
      mret results
  end.

(** ** Export, configuration and deployment *)

Definition export_to_onnx (model : string) (output_path : string) (image_size : nat)
    (opset_version : nat) : M Qc :=
  graph ← lift_result (torch_onnx_export env model image_size opset_version);
  write_file output_path graph;;
  megabytes <$> os_path_getsize output_path.

Definition generate_model_config (output_path : string) (image_size : nat) (file_size : Qc)
    : M unit :=
  let config_path := str_replace output_path ".onnx" "_config.json" in
  write_file config_path (config_json env output_path image_size file_size).

Definition deploy_model (model_path deploy_dir : string) (image_size : nat) : M string :=
  let dest_name := "nail_segmentation.onnx" in
  let dest_path := os_path_join deploy_dir dest_name in
  shutil_copy2 model_path dest_path;;
  file_size ← megabytes <$> os_path_getsize dest_path;
  generate_model_config dest_path image_size file_size;;
  mret dest_path.

End Pipeline.

(** ** The pipeline: [main] *)

(** The parsed command line. *)
Module Args.
Record t := Make {
  checkpoint : string;
  output : string;
  image_size : nat;
  features : list nat;
  opset_version : nat;
  optimize : bool;
  quantize : bool;
  static_quantize : bool;
  calibration_dir : option string;
  calibration_samples : nat;
  verify : bool;
  compare : bool;
  deploy : bool;
  deploy_dir : string
}.
End Args.

(** A Python [dict] from names to paths, in insertion order: assigning to a
    key that is present keeps its place. *)
Fixpoint dict_set (d : list (string * string)) (k v : string) : list (string * string) :=
  match d with
  | [] => [(k, v)]
  | (k', v') :: d' => if bool_decide (k' = k) then (k, v) :: d' else (k', v') :: dict_set d' k v
  end.

Fixpoint dict_lookup (d : list (string * string)) (k : string) : option string :=
  match d with
  | [] => None
  | (k', v') :: d' => if bool_decide (k' = k) then Some v' else dict_lookup d' k
  end.

(** [d.get(k, fallback)] *)
Definition dict_get (d : list (string * string)) (k fallback : string) : string :=
  default fallback (dict_lookup d k).

(** The two variables of [main] that track the variants produced. *)
Record pipeline_state := PipelineState {
  model_variants : list (string * string);
  current_best : string
}.

(** [model_variants[name] = path; current_best = path] *)
Definition register (st : pipeline_state) (name path : string) : pipeline_state :=
  PipelineState (dict_set (model_variants st) name path) path.

Definition optimized_path_of (args : Args.t) : string :=
  str_replace (Args.output args) ".onnx" "_optimized.onnx".

Definition quantized_path_of (args : Args.t) : string :=
  str_replace (Args.output args) ".onnx" "_quantized.onnx".

Definition static_path_of (args : Args.t) : string :=
  str_replace (Args.output args) ".onnx" "_static_int8.onnx".

Section Main.

Context (env : Env).

(** Step 1, and the two assignments after it. *)
Definition step_export (args : Args.t) : M (Qc * pipeline_state) :=
  model ← lift_result (torch_load env (Args.checkpoint args) (Args.features args));
  file_size ← export_to_onnx env model (Args.output args) (Args.image_size args)
                 (Args.opset_version args);
  mret (file_size, PipelineState [("float32", Args.output args)] (Args.output args)).

(** Step 2 *)
Definition step_optimize (args : Args.t) (st : pipeline_state) : M pipeline_state :=
  if Args.optimize args then
    let optimized_path := optimized_path_of args in
    ok ← optimize_graph env (Args.output args) optimized_path;
    if ok : bool then mret (register st "optimized" optimized_path) else mret st
  else mret st.

(** Step 3 *)
Definition step_quantize (args : Args.t) (st : pipeline_state) : M pipeline_state :=
  if Args.quantize args then
    let source := Args.output args in
    let quantized_path := quantized_path_of args in
    ok ← quantize_model env source quantized_path;
    if ok : bool then mret (register st "dynamic-int8" quantized_path) else mret st
  else mret st.

(** Step 4 *)
Definition step_static_quantize (args : Args.t) (st : pipeline_state) : M pipeline_state :=
  if Args.static_quantize args then
    let source := dict_get (model_variants st) "optimized" (Args.output args) in
    let static_path := static_path_of args in
    ok ← static_quantize_model env source static_path (Args.image_size args)
           (Args.calibration_dir args) (Args.calibration_samples args);
    if ok : bool then mret (register st "static-int8" static_path) else mret st
  else mret st.

(** Steps 5 to 8; none of them assigns to the two variables. *)
Definition step_finish (args : Args.t) (file_size : Qc) (st : pipeline_state) : M unit :=
  (if Args.verify args
   then verify_onnx env (Args.output args) (Args.image_size args);; skip
   else skip);;
  (if Args.compare args && bool_decide (1 < length (model_variants st))
   then compare_models env (model_variants st) (Args.image_size args) 100;; skip
   else skip);;
  final_size ← megabytes <$> os_path_getsize (current_best st);
  generate_model_config env (Args.output args) (Args.image_size args) file_size;;
  (if Args.deploy args
   then deploy_model env (current_best st) (Args.deploy_dir args) (Args.image_size args);; skip
   else skip).

(** The three optional stages, in the order of [main]. *)
Definition run_stages (args : Args.t) (st : pipeline_state) : M pipeline_state :=
  st ← step_optimize args st;
  st ← step_quantize args st;
  step_static_quantize args st.

(** [main] returns nothing; the embedding returns the final value of
    [model_variants] and [current_best]. *)
Definition main (args : Args.t) : M pipeline_state :=
  '(file_size, st) ← step_export args;
  st ← run_stages args st;
  step_finish args file_size st;;
  mret st.

End Main.

(** * Properties *)

(** ** Definitions used in the statements *)

(** The sample that [_generate_synthetic] builds from the draw at tick [k]. *)
Definition synthetic_sample (env : Env) (image_size k : nat) : sample :=
  let dims := [1; 3; image_size; image_size] in
  Sample (normalize env (Tensor dims (random_values env k dims))).

(** A sample that comes from a file of the directory. *)
Definition loaded_sample (env : Env) (image_size : nat) (s : sample) : Prop :=
  ∃ path arr, load_image env path image_size = Ret arr ∧ s = Sample (normalize env arr).

(** The check that the verifier is meant to make on one output element. *)
Definition in_unit_interval (v : float) : Prop :=
  match v with
  | Finite q => (0 ≤ q)%Qc ∧ (q ≤ 1)%Qc
  | NonFinite => False
  end.

(** What the verifier asserts of the output of the inference test. *)
Definition output_valid (image_size : nat) (out : tensor) : Prop :=
  shape out = [1; 1; image_size; image_size] ∧ Forall in_unit_interval (values out).

(** The input graph is a non-empty file, and the input, the output and the
    intermediate file are three different paths. *)
Definition distinct_nonempty_input (f : gmap string string) (input_path output_path : string)
    : Prop :=
  (∃ content, f !! input_path = Some content ∧ content ≠ "")
  ∧ input_path ≠ output_path
  ∧ preprocessed_path_of input_path ≠ input_path
  ∧ preprocessed_path_of input_path ≠ output_path.

(** What [static_quantize_model] does once the reader is built and the graph
    to read is chosen. *)
Definition quantize_and_report (env : Env) (input_path output_path quant_input : string)
    (reader : nat) : M bool :=
  quantize_with_fallback env quant_input output_path reader;;
  remove_preprocessed input_path;;
  report_size_reduction input_path output_path;;
  mret true.

(** The number of [rewind] calls in a log. *)
Definition rewinds (evs : list event) : nat :=
  length (filter (λ ev, ev = EvRewind) evs).

(** [current_best] is the path of some entry of [model_variants]. *)
Definition best_is_variant (st : pipeline_state) : Prop :=
  ∃ name, dict_lookup (model_variants st) name = Some (current_best st).

(** A computation that leaves the files as they are. *)
Definition reads_only {A} (m : M A) : Prop := ∀ w, fs (m w).2 = fs w.

(** A computation that logs only calls satisfying [P]. *)
Definition emits (P : event → Prop) {A} (m : M A) : Prop :=
  ∀ w, ∃ evs, trace (m w).2 = trace w ++ evs ∧ Forall P evs.

(** The log entries written on entry into a stage, and those written when
    two outputs are compared. *)
Definition is_stage (ev : event) : bool :=
  match ev with EvStage _ _ _ => true | _ => false end.

Definition is_similarity (ev : event) : bool :=
  match ev with EvSimilarity _ => true | _ => false end.

(** The variants whose file exists, in the order of the dict. *)
Definition existing_variants (f : gmap string string) (items : list (string * string))
    : list (string * string) :=
  filter (λ it, is_Some (f !! it.2)) items.

(** The producer of a stage returned [True]. *)
Definition returned_true (r : result bool) : bool :=
  match r with Ret true => true | _ => false end.

(** What a logged call may be, when the dynamic quantiser is to read
    [raw] and the static quantiser [static_source]. *)
Definition stage_reads (raw static_source : string) (ev : event) : Prop :=
  match ev with
  | EvStage name src _ =>
      (name = "quantize_model" → src = raw)
      ∧ (name = "static_quantize_model" → src = static_source)
  | _ => True
  end.

(** The files that [_load_from_directory] tries to decode, given the entries
    of the directory: those with an image extension, as paths, in sorted order,
    the first [num_samples] of them. *)
Definition image_files_of (directory : string) (names : list string) (num_samples : nat)
    : list string :=
  take num_samples
    (sorted (os_path_join directory <$>
               filter (λ f, str_lower (splitext_ext f) ∈ img_extensions) names)).

(** The sample that a file gives, when it can be decoded. *)
Definition decoded (env : Env) (image_size : nat) (path : string) : option sample :=
  match load_image env path image_size with
  | Ret arr => Some (Sample (normalize env arr))
  | Raise _ => None
  end.

(** ** Sample environments *)

Definition all_importable : string → bool := λ _, true.

Definition unit_tensor (dims : list nat) (v : Qc) : tensor := Tensor dims [Finite v].

(** An environment in which every library call that is not given here
    succeeds. *)
Definition sample_env
    (importable : string → bool)
    (ort_optimize : option bytes → result bytes)
    (onnxoptimizer_optimize : bytes → list string → result bytes)
    (quant_pre_process : option bytes → result bytes)
    (quantize_static : quant_config → option bytes → list sample → nat * result bytes)
    (ort_load : option bytes → result unit)
    (session_run : bytes → nat → tensor → result (list tensor))
    (isdir : string → bool)
    (listdir : string → result (list string))
    (load_image : string → nat → result tensor) : Env :=
  {| importable := importable;
     ort_optimize := ort_optimize;
     onnx_load := λ c, match c with
                       | Some b => Ret b
                       | None => Raise (Exn FileNotFoundError "no such file")
                       end;
     onnx_check_model := λ _, Ret ();
     onnx_model_info := λ _, Ret ();
     onnxoptimizer_optimize := onnxoptimizer_optimize;
     quantize_dynamic := λ c _, Ret "dynamic-int8-graph";
     quant_pre_process := quant_pre_process;
     quantize_static := quantize_static;
     ort_load := ort_load;
     session_run := session_run;
     clock := λ k, Qc_of_Z (Z.of_nat k);
     random_values := λ k dims, [Finite (Qc_of_Z (Z.of_nat k))];
     normalize := λ x, x;
     isdir := isdir;
     listdir := listdir;
     load_image := load_image;
     similarity_metrics := λ _ _, Ret ("0.999999", "0.00000001");
     torch_load := λ _ _, Ret "model";
     torch_onnx_export := λ _ _ _, Ret "float32-graph";
     config_json := λ _ _ _, "{}" |}.

Definition valid_output : tensor := Tensor [1; 1; 1; 1] [Finite (Qc_of_Z 1)].

Definition no_image : string → nat → result tensor :=
  λ _ _, Raise (Exn ValueError "cannot identify image file").

(** Every package is installed and every call succeeds; the graph maps an
    input of side 1 to one value inside the unit interval. *)
Definition env_all_ok : Env :=
  sample_env all_importable
    (λ _, Ret "ort-optimized-graph")
    (λ _ _, Ret "onnxoptimizer-graph")
    (λ _, Ret "preprocessed-graph")
    (λ _ _ samples, (length samples, Ret "static-int8-graph"))
    (λ _, Ret ())
    (λ _ _ _, Ret [valid_output])
    (λ _, false) (λ _, Ret []) no_image.

(** The path [calib] is a directory whose files cannot be decoded. *)
Definition env_undecodable_directory : Env :=
  sample_env all_importable
    (λ _, Ret "ort-optimized-graph")
    (λ _ _, Ret "onnxoptimizer-graph")
    (λ _, Ret "preprocessed-graph")
    (λ _ _ samples, (length samples, Ret "static-int8-graph"))
    (λ _, Ret ())
    (λ _ _ _, Ret [valid_output])
    (λ p, bool_decide (p = "calib")) (λ _, Ret ["notes.txt"; "broken.png"]) no_image.

Definition empty_world : world := World ∅ [] 0 [].

(** The primary optimiser is not installed; the secondary one is and raises
    on the graph. *)
Definition env_secondary_raises : Env :=
  sample_env
    (λ name, negb (bool_decide (name = "onnxruntime")))
    (λ _, Ret "ort-optimized-graph")
    (λ _ _, Raise (Exn RuntimeError "unsupported operator"))
    (λ _, Ret "preprocessed-graph")
    (λ _ _ _, (0, Ret "static-int8-graph"))
    (λ _, Ret ())
    (λ _ _ _, Ret [unit_tensor [1; 1; 1; 1] 0])
    (λ _, false) (λ _, Ret []) (λ _ _, Raise (Exn ValueError "cannot identify image file")).

Definition world_with_file (path : string) (content : bytes) : world :=
  World {[ path := content ]} [] 0 [].

(** No package is installed; the graph answers every input with one value
    outside the unit interval, in an array of the wrong shape. *)
Definition env_no_packages : Env :=
  sample_env (λ _, false)
    (λ _, Ret "ort-optimized-graph")
    (λ _ _, Ret "onnxoptimizer-graph")
    (λ _, Ret "preprocessed-graph")
    (λ _ _ samples, (length samples, Ret "static-int8-graph"))
    (λ _, Ret ())
    (λ _ _ _, Ret [Tensor [1; 2] [Finite (Qc_of_Z 7)]])
    (λ _, false) (λ _, Ret []) no_image.

(** Static quantisation raises in both formats; the pre-processing step
    succeeds. *)
Definition env_static_fails : Env :=
  sample_env all_importable
    (λ _, Ret "ort-optimized-graph")
    (λ _ _, Ret "onnxoptimizer-graph")
    (λ _, Ret "preprocessed-graph")
    (λ _ _ samples, (length samples, Raise (Exn RuntimeError "quantization failed")))
    (λ _, Ret ())
    (λ _ _ _, Ret [valid_output])
    (λ _, false) (λ _, Ret []) no_image.

(** Static quantisation raises in format QDQ, after reading one sample, and
    succeeds in format QOperator. *)
Definition env_qdq_fails : Env :=
  sample_env all_importable
    (λ _, Ret "ort-optimized-graph")
    (λ _ _, Ret "onnxoptimizer-graph")
    (λ _, Ret "preprocessed-graph")
    (λ cfg _ samples,
       match quant_fmt cfg with
       | QDQ => (1, Raise (Exn RuntimeError "QDQ not supported"))
       | QOperator => (length samples, Ret "static-int8-graph")
       end)
    (λ _, Ret ())
    (λ _ _ _, Ret [valid_output])
    (λ _, false) (λ _, Ret []) no_image.

(** A command line that asks for every stage. *)
Definition sample_args : Args.t :=
  Args.Make "best_model.pth" "m.onnx" 1 [16; 32; 64; 128] 13 true true true None 2
    true true true "public/models".

(** The session cannot be created for the graph [broken-graph]. *)
Definition env_broken_variant : Env :=
  sample_env all_importable
    (λ _, Ret "ort-optimized-graph")
    (λ _ _, Ret "onnxoptimizer-graph")
    (λ _, Ret "preprocessed-graph")
    (λ _ _ samples, (length samples, Ret "static-int8-graph"))
    (λ c, if bool_decide (c = Some "broken-graph")
          then Raise (Exn RuntimeError "cannot load model") else Ret ())
    (λ _ _ _, Ret [valid_output])
    (λ _, false) (λ _, Ret []) no_image.

Definition two_variants : list (string * string) :=
  [("float32", "m.onnx"); ("dynamic-int8", "m_quantized.onnx")].

Definition world_with_two_variants : world :=
  World {[ "m.onnx" := "float32-graph"; "m_quantized.onnx" := "broken-graph" ]} [] 0 [].

(** The path [calib] is a directory with two image files, [hand.JPG], which
    can be decoded, and [broken.png], which cannot; the file [elsewhere.png]
    outside of it can be decoded too. *)
Definition env_one_image : Env :=
  sample_env all_importable
    (λ _, Ret "ort-optimized-graph")
    (λ _ _, Ret "onnxoptimizer-graph")
    (λ _, Ret "preprocessed-graph")
    (λ _ _ samples, (length samples, Ret "static-int8-graph"))
    (λ _, Ret ())
    (λ _ _ _, Ret [valid_output])
    (λ p, bool_decide (p = "calib"))
    (λ _, Ret ["notes.txt"; "hand.JPG"; "broken.png"])
    (λ p _, if bool_decide (p = "calib/hand.JPG") || bool_decide (p = "elsewhere.png")
            then Ret (unit_tensor [1; 3; 1; 1] 0)
            else Raise (Exn ValueError "cannot identify image file")).

(** The path [calib] is a directory whose only image file cannot be decoded;
    the file [elsewhere.png] outside of it can. *)
Definition env_image_elsewhere : Env :=
  sample_env all_importable
    (λ _, Ret "ort-optimized-graph")
    (λ _ _, Ret "onnxoptimizer-graph")
    (λ _, Ret "preprocessed-graph")
    (λ _ _ samples, (length samples, Ret "static-int8-graph"))
    (λ _, Ret ())
    (λ _ _ _, Ret [valid_output])
    (λ p, bool_decide (p = "calib"))
    (λ _, Ret ["notes.txt"; "broken.png"])
    (λ p _, if bool_decide (p = "elsewhere.png")
            then Ret (unit_tensor [1; 3; 1; 1] 0)
            else Raise (Exn ValueError "cannot identify image file")).

(** The package PIL is not installed; the path [calib] is a directory. *)
Definition env_pil_missing : Env :=
  sample_env (λ name, negb (bool_decide (name = "PIL")))
    (λ _, Ret "ort-optimized-graph")
    (λ _ _, Ret "onnxoptimizer-graph")
    (λ _, Ret "preprocessed-graph")
    (λ _ _ samples, (length samples, Ret "static-int8-graph"))
    (λ _, Ret ())
    (λ _ _ _, Ret [valid_output])
    (λ p, bool_decide (p = "calib")) (λ _, Ret ["hand.png"]) no_image.

(** Every package is installed and every call succeeds; the graph that the
    dynamic quantiser saves names the graph it was given. *)
Definition env_tagging_quantizer : Env :=
  {| importable := all_importable;
     ort_optimize := λ _, Ret "ort-optimized-graph";
     onnx_load := λ c, match c with
                       | Some b => Ret b
                       | None => Raise (Exn FileNotFoundError "no such file")
                       end;
     onnx_check_model := λ _, Ret ();
     onnx_model_info := λ _, Ret ();
     onnxoptimizer_optimize := λ _ _, Ret "onnxoptimizer-graph";
     quantize_dynamic := λ c _, match c with
                                | Some b => Ret ("int8 of " +:+ b)
                                | None => Raise (Exn FileNotFoundError "no such file")
                                end;
     quant_pre_process := λ _, Ret "preprocessed-graph";
     quantize_static := λ _ _ samples, (length samples, Ret "static-int8-graph");
     ort_load := λ _, Ret ();
     session_run := λ _ _ _, Ret [valid_output];
     clock := λ k, Qc_of_Z (Z.of_nat k);
     random_values := λ k dims, [Finite (Qc_of_Z (Z.of_nat k))];
     normalize := λ x, x;
     isdir := λ _, false;
     listdir := λ _, Ret [];
     load_image := no_image;
     similarity_metrics := λ _ _, Ret ("0.999999", "0.00000001");
     torch_load := λ _ _, Ret "model";
     torch_onnx_export := λ _ _ _, Ret "float32-graph";
     config_json := λ _ _ _, "{}" |}.

(** The command line [--output model.bin --optimize --quantize]. *)
Definition args_bin_optimize_quantize : Args.t :=
  Args.Make "best_model.pth" "model.bin" 1 [16; 32; 64; 128] 13 true true false None 2
    false false false "public/models".

(** ** Definitions used in the further properties *)

(** The text [old] occurs in [s]. *)
Definition occurs (old s : string) : Prop :=
  ∃ pre post, s = pre +:+ old +:+ post.

(** The only occurrence of [old] in [stem +:+ old] is the one at the end. *)
Definition only_suffix (old stem : string) : Prop :=
  ∀ pre post, stem +:+ old = pre +:+ old +:+ post → pre = stem.


(** A computation that creates, overwrites or deletes files only at the
    paths in [paths]. *)
Definition touches_only (paths : string → Prop) {A} (m : M A) : Prop :=
  ∀ w p, ¬ paths p → fs (m w).2 !! p = fs w !! p.

(** A command line whose output path does not end in [.onnx]. *)
Definition args_without_suffix : Args.t :=
  Args.Make "best_model.pth" "model.bin" 1 [16; 32; 64; 128] 13 true true true None 2
    true true true "public/models".
(** * Proofs *)

(** ** The helpers on examples *)

Example str_replace_suffix :
  str_replace "public/models/nail_segmentation.onnx" ".onnx" "_optimized.onnx"
  = "public/models/nail_segmentation_optimized.onnx".
Proof. reflexivity. Qed.

Example str_replace_absent : str_replace "model.bin" ".onnx" "_optimized.onnx" = "model.bin".
Proof. reflexivity. Qed.

Example str_replace_every_occurrence :
  str_replace "a.onnx/b.onnx" ".onnx" "_q.onnx" = "a_q.onnx/b_q.onnx".
Proof. reflexivity. Qed.

Example splitext_ext_upper : str_lower (splitext_ext "hand.01.JPG") = ".jpg".
Proof. reflexivity. Qed.

Example splitext_ext_hidden : splitext_ext ".png" = "".
Proof. reflexivity. Qed.

Example splitext_ext_none : splitext_ext "README" = "".
Proof. reflexivity. Qed.

Example os_path_join_plain : os_path_join "public/models" "nail_segmentation.onnx"
                             = "public/models/nail_segmentation.onnx".
Proof. reflexivity. Qed.

Example os_path_join_slash : os_path_join "calib/" "a.png" = "calib/a.png".
Proof. reflexivity. Qed.

Example sorted_by_code_point : sorted ["b.png"; "a.png"; "B.png"] = ["B.png"; "a.png"; "b.png"].
Proof. reflexivity. Qed.

Example dict_set_keeps_place :
  dict_set [("float32", "m.onnx"); ("optimized", "old")] "float32" "new"
  = [("float32", "new"); ("optimized", "old")].
Proof. reflexivity. Qed.

Example dict_set_appends :
  dict_set [("float32", "m.onnx")] "optimized" "m_optimized.onnx"
  = [("float32", "m.onnx"); ("optimized", "m_optimized.onnx")].
Proof. reflexivity. Qed.

Example reader_reads_then_ends :
  let r := CalibrationDataReader.Make 1 2 0
             [Sample (Tensor [1] [Finite 0%Qc]); Sample (Tensor [1] [NonFinite])] in
  CalibrationDataReader.iterate 3 r
  = Some (CalibrationDataReader.data r, CalibrationDataReader.Make 1 2 2
                                          (CalibrationDataReader.data r))
  ∧ CalibrationDataReader.iterate 2 r = None.
Proof. split; reflexivity. Qed.

Example full_pipeline_variants :
  (main env_all_ok sample_args empty_world).1
  = Ret (PipelineState
           [("float32", "m.onnx"); ("optimized", "m_optimized.onnx");
            ("dynamic-int8", "m_quantized.onnx"); ("static-int8", "m_static_int8.onnx")]
           "m_static_int8.onnx").
Proof. vm_compute. reflexivity. Qed.

(** ** Running computations *)

Lemma run_bind {A B} (m : M A) (f : A → M B) (w : world) :
  (m ≫= f) w = match m w with
               | (Ret a, w') => f a w'
               | (Raise e, w') => (Raise e, w')
               end.
Proof. reflexivity. Qed.

Lemma run_fmap {A B} (g : A → B) (m : M A) (w : world) :
  (g <$> m) w = match m w with
                | (Ret a, w') => (Ret (g a), w')
                | (Raise e, w') => (Raise e, w')
                end.
Proof. reflexivity. Qed.

Lemma run_try_except {A} (body : M A) catches (handler : exn → M A) (w : world) :
  try_except body catches handler w
  = match body w with
    | (Ret a, w') => (Ret a, w')
    | (Raise e, w') => if catches e then handler e w' else (Raise e, w')
    end.
Proof. reflexivity. Qed.

Lemma py_import_found env name w :
  importable env name = true → py_import env name w = (Ret (), w).
Proof. intros H. unfold py_import. by rewrite H. Qed.

Lemma py_import_missing env name w :
  importable env name = false →
  py_import env name w = (Raise (Exn ImportError ("No module named " +:+ name)), w).
Proof. intros H. unfold py_import. by rewrite H. Qed.

Lemma bind_ret_inv {A B} (m : M A) (f : A → M B) w b w' :
  (m ≫= f) w = (Ret b, w') → ∃ a w1, m w = (Ret a, w1) ∧ f a w1 = (Ret b, w').
Proof.
  rewrite run_bind. destruct (m w) as [[a|e] w1]; [|done]. intros H. by exists a, w1.
Qed.

Lemma lift_result_ret_inv {A} (r : result A) w a w' :
  lift_result r w = (Ret a, w') → r = Ret a ∧ w' = w.
Proof. unfold lift_result. by intros [= -> ->]. Qed.

(** Unfolds the operations of the monad and of the file system. *)
Ltac munfold :=
  repeat progress
    (unfold try_return, try_or_return, try_except, mbind, M_bind, fmap, M_fmap, mret, M_ret,
       raise, skip, lift_result, emit, get_fs, put_fs, next_tick, py_import, write_file,
       os_path_exists, os_path_getsize, os_remove, shutil_copy2, is_Exception,
       is_ImportError, new_object, deref, assign;
     cbv beta).

(** ** The calibration sample source replays its samples *)

Section ReaderFacts.

Import CalibrationDataReader.

Implicit Types self : CalibrationDataReader.t.

Lemma get_next_data self : data (get_next self).2 = data self.
Proof. unfold get_next. case_bool_decide; reflexivity. Qed.

Lemma rewind_data self : data (rewind self) = data self.
Proof. reflexivity. Qed.

Lemma get_next_at_end self :
  length (data self) ≤ current self → get_next self = (None, self).
Proof. intros H. unfold get_next. rewrite bool_decide_eq_true_2; done. Qed.

Lemma get_next_before_end self x :
  data self !! current self = Some x →
  get_next self = (Some x, Make (image_size self) (num_samples self) (current self + 1) (data self)).
Proof.
  intros H. unfold get_next.
  rewrite bool_decide_eq_false_2; [by rewrite H|].
  apply lookup_lt_Some in H. lia.
Qed.

(** Reading to the end from any position returns the samples still to come
    and stops at the end of the data, given fuel for one call more than there
    are samples left. *)
Lemma iterate_remaining fuel self :
  length (data self) - current self < fuel →
  ∃ self', iterate fuel self = Some (remaining self, self')
           ∧ data self' = data self
           ∧ get_next self' = (None, self').
Proof.
  revert self. induction fuel as [|fuel IH]; intros self Hfuel; [lia|].
  unfold remaining. simpl.
  destruct (data self !! current self) as [x|] eqn:Hx.
  - rewrite (get_next_before_end _ _ Hx).
    pose proof (lookup_lt_Some _ _ _ Hx) as Hlt.
    destruct (IH (Make (image_size self) (num_samples self) (current self + 1) (data self)))
      as (self' & Hit & Hd & Hend); [simpl; lia|].
    rewrite Hit. exists self'. split_and!; [|done..].
    unfold remaining. simpl.
    rewrite (drop_S _ _ _ Hx). by rewrite Nat.add_1_r.
  - apply lookup_ge_None in Hx.
    rewrite (get_next_at_end _ Hx). exists self. split_and!; [|done|by apply get_next_at_end].
    by rewrite drop_ge.
Qed.

Lemma iterate_data fuel self xs self' :
  iterate fuel self = Some (xs, self') → data self' = data self.
Proof.
  revert self xs. induction fuel as [|fuel IH]; intros self xs; [done|].
  simpl. destruct (get_next self) as [[x|] s1] eqn:Hg.
  - destruct (iterate fuel s1) as [[ys s2]|] eqn:Hit; [|done].
    intros [= <- <-]. rewrite (IH _ _ Hit).
    by rewrite <- (get_next_data self), Hg.
  - intros [= <- <-]. by rewrite <- (get_next_data self), Hg.
Qed.

Lemma replay_replicate rounds self :
  replay rounds self = Some (replicate rounds (data self)).
Proof.
  revert self. induction rounds as [|rounds IH]; intros self; [done|].
  cbn [replay].
  destruct (iterate_remaining (S (length (data self))) (rewind self))
    as (self' & Hit & Hd & _); [simpl; lia|].
  rewrite Hit, IH, Hd. reflexivity.
Qed.

End ReaderFacts.

(** C4. Whatever state a calibration sample source is in, rewinding it and
    reading it to the end, any number of times in a row, yields its stored
    sequence of samples each time, and the reading reaches the end of the
    sequence; neither [rewind] nor [get_next] changes the stored samples, and a
    call of [rewind] makes no random draw, so nothing is generated again. *)
Theorem calibration_reader_replay (self : CalibrationDataReader.t) (rounds : nat) :
  CalibrationDataReader.replay rounds self
    = Some (replicate rounds (CalibrationDataReader.data self))
  ∧ CalibrationDataReader.data (CalibrationDataReader.rewind self)
    = CalibrationDataReader.data self
  ∧ CalibrationDataReader.data (CalibrationDataReader.get_next self).2
    = CalibrationDataReader.data self
  ∧ (∃ self',
       CalibrationDataReader.iterate (S (length (CalibrationDataReader.data self)))
         (CalibrationDataReader.rewind self)
       = Some (CalibrationDataReader.data self, self')
       ∧ CalibrationDataReader.get_next self' = (None, self'))
  ∧ (∀ ref w, tick (call_rewind ref w).2 = tick w ∧ fs (call_rewind ref w).2 = fs w).
Proof.
  split_and!.
  - apply replay_replicate.
  - apply rewind_data.
  - apply get_next_data.
  - destruct (iterate_remaining (S (length (CalibrationDataReader.data self)))
                (CalibrationDataReader.rewind self)) as (self' & Hit & _ & Hend).
    { simpl. lia. }
    exists self'. split; [|done]. rewrite Hit. reflexivity.
  - intros ref w. unfold call_rewind, deref, mbind, M_bind, emit, assign.
    destruct (heap w !! ref); simpl; done.
Qed.

(** ** Building the calibration sample source *)

Lemma generate_samples_run env self n w :
  generate_samples env self n w
  = (Ret (CalibrationDataReader.set_data self
            (CalibrationDataReader.data self
               ++ (synthetic_sample env (CalibrationDataReader.image_size self)
                     <$> seq (tick w) n))),
     World (fs w) (heap w) (tick w + n) (trace w)).
Proof.
  revert self w. induction n as [|n IH]; intros self w.
  - destruct self, w. simpl. unfold CalibrationDataReader.set_data. simpl.
    by rewrite app_nil_r, Nat.add_0_r.
  - cbn [generate_samples]. rewrite run_bind. unfold next_tick at 1. cbv beta iota.
    rewrite IH. destruct self. unfold CalibrationDataReader.set_data. simpl.
    rewrite <- app_assoc. simpl. do 3 f_equal. lia.
Qed.

Lemma load_images_run env self files w :
  ∃ loaded,
    load_images env self files w
    = (Ret (CalibrationDataReader.set_data self (CalibrationDataReader.data self ++ loaded)), w)
    ∧ length loaded ≤ length files
    ∧ Forall (loaded_sample env (CalibrationDataReader.image_size self)) loaded
    ∧ ((∀ p, p ∈ files →
          raises (load_image env p (CalibrationDataReader.image_size self)) = true) →
       loaded = []).
Proof.
  revert self. induction files as [|p files IH]; intros self.
  - exists []. destruct self. unfold CalibrationDataReader.set_data. simpl.
    rewrite app_nil_r. done.
  - cbn [load_images]. rewrite run_bind, run_try_except, run_bind. unfold lift_result at 1.
    destruct (load_image env p (CalibrationDataReader.image_size self)) as [arr|e] eqn:Hload.
    + cbv beta iota.
      destruct (IH (CalibrationDataReader.set_data self
                      (CalibrationDataReader.data self ++ [Sample (normalize env arr)])))
        as (loaded & Hrun & Hlen & Hall & Hnone).
      exists (Sample (normalize env arr) :: loaded).
      simpl. rewrite Hrun. destruct self. unfold CalibrationDataReader.set_data. simpl.
      rewrite <- app_assoc. split_and!; [done|simpl; lia| |].
      * constructor; [by exists p, arr|done].
      * intros Hfail. assert (Hp : p ∈ p :: files) by set_solver.
        specialize (Hfail p Hp). simpl in Hfail, Hload. rewrite Hload in Hfail.
        discriminate Hfail.
    + cbv beta iota. simpl.
      destruct (IH self) as (loaded & Hrun & Hlen & Hall & Hnone).
      exists loaded. rewrite Hrun. split_and!; [done|simpl; lia|done|].
      intros Hfail. apply Hnone. intros q Hq. apply Hfail. set_solver.
Qed.

(** The loop of [_load_from_directory] stores, in order, the samples of the
    files that can be decoded. *)
Lemma load_images_decoded env self files w :
  load_images env self files w
  = (Ret (CalibrationDataReader.set_data self
            (CalibrationDataReader.data self
               ++ omap (decoded env (CalibrationDataReader.image_size self)) files)), w).
Proof.
  revert self. induction files as [|p files IH]; intros self.
  - destruct self. unfold CalibrationDataReader.set_data. simpl. by rewrite app_nil_r.
  - cbn [load_images]. rewrite run_bind, run_try_except, run_bind. unfold lift_result at 1.
    cbn [omap list_omap]. unfold decoded at 1.
    destruct (load_image env p (CalibrationDataReader.image_size self)) as [arr|e].
    + cbv beta iota. simpl. rewrite IH. destruct self.
      unfold CalibrationDataReader.set_data. simpl. by rewrite <- app_assoc.
    + cbv beta iota. simpl. by rewrite IH.
Qed.

Lemma omap_length_le {A B} (f : A → option B) (l : list A) :
  length (omap f l) ≤ length l.
Proof. induction l as [|a l IH]; [done|]. cbn [omap list_omap]. destruct (f a); simpl; lia. Qed.

(** Every file that is tried is an entry of the directory. *)
Lemma image_files_of_entries directory names num_samples p :
  p ∈ image_files_of directory names num_samples →
  ∃ name, name ∈ names ∧ p = os_path_join directory name.
Proof.
  unfold image_files_of, sorted. intros (i & Hi & _)%elem_of_take.
  apply list_elem_of_lookup_2 in Hi. rewrite merge_sort_Permutation in Hi.
  apply list_elem_of_fmap in Hi as (name & -> & Hname).
  apply list_elem_of_filter in Hname as [_ Hname]. eauto.
Qed.

(** C5, as the code has it. The source is filled with synthetic samples
    exactly when no directory is given or the given path is empty or not an
    existing directory: it then holds exactly [num_samples] samples, one per
    random draw. When the path is an existing directory the source is filled
    from the files of that directory only: it holds, in order, the samples of
    those of the first [num_samples] image files of the directory that can be
    decoded, so at most [num_samples] samples, each of them decoded from an
    entry of the directory; no random draw is made, and the source is empty
    when no entry of the directory can be decoded, whatever other files can. *)
Theorem calibration_source_sample_count (env : Env) (image_size : nat)
    (calibration_dir : option string) (num_samples : nat) (w : world) :
  (use_directory env calibration_dir = None →
   ∃ r, CalibrationDataReader__init__ env image_size calibration_dir num_samples w
        = (Ret r, World (fs w) (heap w) (tick w + num_samples) (trace w))
        ∧ length (CalibrationDataReader.data r) = num_samples
        ∧ CalibrationDataReader.data r
          = (synthetic_sample env image_size <$> seq (tick w) num_samples)
        ∧ CalibrationDataReader.current r = 0)
  ∧ (∀ dir r w',
       use_directory env calibration_dir = Some dir →
       CalibrationDataReader__init__ env image_size calibration_dir num_samples w
       = (Ret r, w') →
       w' = w
       ∧ length (CalibrationDataReader.data r) ≤ num_samples
       ∧ Forall (loaded_sample env image_size) (CalibrationDataReader.data r)
       ∧ ((∀ p, raises (load_image env p image_size) = true) →
          CalibrationDataReader.data r = [])
       ∧ ∃ names,
           listdir env dir = Ret names
           ∧ CalibrationDataReader.data r
             = omap (decoded env image_size) (image_files_of dir names num_samples)
           ∧ Forall (λ s, ∃ name arr,
                       name ∈ names
                       ∧ load_image env (os_path_join dir name) image_size = Ret arr
                       ∧ s = Sample (normalize env arr))
               (CalibrationDataReader.data r)
           ∧ ((∀ name, name ∈ names →
                 raises (load_image env (os_path_join dir name) image_size) = true) →
              CalibrationDataReader.data r = [])).
Proof.
  split.
  - intros Hdir. unfold CalibrationDataReader__init__, _generate_synthetic. rewrite Hdir.
    rewrite generate_samples_run. simpl.
    eexists. split; [reflexivity|]. simpl.
    split_and!; [|done..]. by rewrite length_fmap, length_seq.
  - intros dir r w' Hdir. unfold CalibrationDataReader__init__. rewrite Hdir.
    unfold _load_from_directory. rewrite run_bind.
    destruct (importable env "PIL") eqn:Hpil;
      [rewrite (py_import_found _ _ _ Hpil)|by rewrite (py_import_missing _ _ _ Hpil)].
    rewrite run_bind. unfold lift_result at 1.
    destruct (listdir env dir) as [names|e]; [|done].
    simpl CalibrationDataReader.num_samples.
    fold (image_files_of dir names num_samples).
    rewrite load_images_decoded. intros [= <- <-]. simpl.
    set (files := image_files_of dir names num_samples).
    assert (Hfrom : ∀ s, s ∈ omap (decoded env image_size) files →
              ∃ name arr, name ∈ names
                          ∧ load_image env (os_path_join dir name) image_size = Ret arr
                          ∧ s = Sample (normalize env arr)).
    { intros s (p & Hp & Hdec)%list_elem_of_omap.
      apply image_files_of_entries in Hp as (name & Hname & ->).
      unfold decoded in Hdec.
      destruct (load_image env (os_path_join dir name) image_size) as [arr|] eqn:Hload;
        [|done].
      injection Hdec as <-. eauto. }
    assert (Hempty : (∀ name, name ∈ names →
                        raises (load_image env (os_path_join dir name) image_size) = true) →
                     omap (decoded env image_size) files = []).
    { intros Hfail. destruct (omap (decoded env image_size) files) as [|s l] eqn:Hl; [done|].
      destruct (Hfrom s) as (name & arr & Hname & Hload & _); [left|].
      specialize (Hfail name Hname). by rewrite Hload in Hfail. }
    split_and!; [done| | | |].
    + etrans; [apply omap_length_le|]. unfold files, image_files_of.
      rewrite length_take. lia.
    + apply Forall_forall. intros s Hs.
      destruct (Hfrom s Hs) as (name & arr & _ & Hload & ->). by exists (os_path_join dir name), arr.
    + intros Hfail. apply Hempty. intros name _. apply Hfail.
    + exists names. split_and!; [done|done| |done].
      by apply Forall_forall.
Qed.

Lemma init_frame env image_size calibration_dir num_samples w res w' :
  CalibrationDataReader__init__ env image_size calibration_dir num_samples w = (res, w') →
  fs w' = fs w ∧ heap w' = heap w ∧ trace w' = trace w
  ∧ ∀ r, res = Ret r → CalibrationDataReader.current r = 0.
Proof.
  unfold CalibrationDataReader__init__.
  destruct (use_directory env calibration_dir) as [dir|].
  - unfold _load_from_directory. munfold.
    destruct (importable env "PIL"); [|by intros [= <- <-]].
    destruct (listdir env dir) as [names|e]; [|by intros [= <- <-]].
    match goal with |- context [load_images _ ?s ?files _] =>
      destruct (load_images_run env s files w) as (loaded & -> & _)
    end.
    intros [= <- <-]. split_and!; try done. by intros r [= <-].
  - unfold _generate_synthetic. rewrite generate_samples_run.
    intros [= <- <-]. split_and!; try done. by intros r [= <-].
Qed.


(** C5 fails as stated: the path [calib] is an existing directory in which no
    file can be decoded, the target count is 100, and the source is built
    without a single sample. *)
Lemma calibration_source_undecodable_directory :
  isdir env_undecodable_directory "calib" = true
  ∧ (∀ p, raises (load_image env_undecodable_directory p 2) = true)
  ∧ CalibrationDataReader__init__ env_undecodable_directory 2 (Some "calib") 100 empty_world
    = (Ret (CalibrationDataReader.Make 2 100 0 []), empty_world)
  ∧ length (CalibrationDataReader.data (CalibrationDataReader.Make 2 100 0 [])) ≠ 100.
Proof. split_and!; [reflexivity|intros p; reflexivity|vm_compute; reflexivity|simpl; lia]. Qed.

Lemma calibration_source_sample_count_witness :
  (∃ r, CalibrationDataReader__init__ env_all_ok 2 None 3 empty_world
        = (Ret r, World ∅ [] 3 [])
        ∧ length (CalibrationDataReader.data r) = 3
        ∧ CalibrationDataReader.data r = (synthetic_sample env_all_ok 2 <$> seq 0 3)
        ∧ CalibrationDataReader.current r = 0)
  ∧ (∃ names,
       listdir env_one_image "calib" = Ret names
       ∧ [Sample (unit_tensor [1; 3; 1; 1] 0)]
         = omap (decoded env_one_image 1) (image_files_of "calib" names 100))
  ∧ (load_image env_image_elsewhere "elsewhere.png" 1 = Ret (unit_tensor [1; 3; 1; 1] 0)
     ∧ CalibrationDataReader__init__ env_image_elsewhere 1 (Some "calib") 100 empty_world
       = (Ret (CalibrationDataReader.Make 1 100 0 []), empty_world)
     ∧ CalibrationDataReader.data (CalibrationDataReader.Make 1 100 0 []) = []).
Proof.
  split; [|split].
  - exact (proj1 (calibration_source_sample_count env_all_ok 2 None 3 empty_world) eq_refl).
  - destruct (proj2 (calibration_source_sample_count env_one_image 1 (Some "calib") 100
                       empty_world)
                "calib" (CalibrationDataReader.Make 1 100 0 [Sample (unit_tensor [1; 3; 1; 1] 0)])
                empty_world eq_refl)
      as (_ & _ & _ & _ & names & Hnames & Hdata & _).
    + vm_compute. reflexivity.
    + exists names. split; [exact Hnames | exact Hdata].
  - split; [reflexivity|]. split; [vm_compute; reflexivity|].
    destruct (proj2 (calibration_source_sample_count env_image_elsewhere 1 (Some "calib") 100
                       empty_world)
                "calib" (CalibrationDataReader.Make 1 100 0 []) empty_world eq_refl)
      as (_ & _ & _ & _ & names & Hnames & _ & _ & Hempty).
    + vm_compute. reflexivity.
    + apply Hempty. injection Hnames as <-. intros name Hname.
      repeat (apply elem_of_cons in Hname as [->|Hname]; [reflexivity|]).
      by apply elem_of_nil in Hname.
Defined.

(** ** The verifier without its packages *)

(** C10. When [onnx] or [onnxruntime] cannot be imported, [verify_onnx]
    returns [True] for every path and resolution and leaves the world as it
    found it: no file is read, no check is made and no inference is run, so the
    answer does not depend on the artifact. *)
Theorem verify_onnx_skipped_without_packages (env : Env) (onnx_path : string)
    (image_size : nat) (w : world) :
  importable env "onnx" = false ∨ importable env "onnxruntime" = false →
  verify_onnx env onnx_path image_size w = (Ret true, w).
Proof.
  intros H. unfold verify_onnx, try_or_return.
  rewrite run_bind, run_try_except, run_fmap, run_bind.
  destruct (importable env "onnx") eqn:Honnx.
  - destruct H as [H|H]; [done|].
    rewrite (py_import_found _ _ _ Honnx), (py_import_missing _ _ _ H). reflexivity.
  - rewrite (py_import_missing _ _ _ Honnx). reflexivity.
Qed.

Lemma verify_onnx_skipped_without_packages_witness :
  (importable env_no_packages "onnx" = false ∨ importable env_no_packages "onnxruntime" = false)
  ∧ verify_onnx env_no_packages "broken.onnx" 256 (world_with_file "broken.onnx" "garbage")
    = (Ret true, world_with_file "broken.onnx" "garbage").
Proof.
  split; [left; reflexivity|].
  apply verify_onnx_skipped_without_packages. left. reflexivity.
Defined.

(** ** The verifier with its packages *)

Lemma foldl_fmin_ge_zero v vs :
  ge_zero (foldl fmin v vs) = true ↔ Forall (λ x, ge_zero x = true) (v :: vs).
Proof.
  revert v. induction vs as [|x vs IH]; intros v; simpl.
  - split; [by constructor|by inversion 1].
  - rewrite IH. rewrite !Forall_cons.
    destruct v as [a|], x as [b|]; simpl.
    + destruct (decide (a ≤ b)%Qc) as [Hab|Hab]; simpl.
      * rewrite !bool_decide_eq_true. split; [|tauto].
        intros [Ha Hvs]. split_and!; try done. by etrans.
      * rewrite !bool_decide_eq_true. split; [|tauto].
        intros [Hb Hvs]. split_and!; try done.
        apply Qcnot_le_lt in Hab. apply Qclt_le_weak in Hab. by etrans.
    + split; intros; destruct_and?; done.
    + split; intros; destruct_and?; done.
    + split; intros; destruct_and?; done.
Qed.

Lemma foldl_fmax_le_one v vs :
  le_one (foldl fmax v vs) = true ↔ Forall (λ x, le_one x = true) (v :: vs).
Proof.
  revert v. induction vs as [|x vs IH]; intros v; simpl.
  - split; [by constructor|by inversion 1].
  - rewrite IH. rewrite !Forall_cons.
    destruct v as [a|], x as [b|]; simpl.
    + destruct (decide (a ≤ b)%Qc) as [Hab|Hab]; simpl.
      * rewrite !bool_decide_eq_true. split; [|tauto].
        intros [Hb Hvs]. split_and!; try done. by etrans.
      * rewrite !bool_decide_eq_true. split; [|tauto].
        intros [Ha Hvs]. split_and!; try done.
        apply Qcnot_le_lt in Hab. apply Qclt_le_weak in Hab. by etrans.
    + split; intros; destruct_and?; done.
    + split; intros; destruct_and?; done.
    + split; intros; destruct_and?; done.
Qed.

Lemma in_unit_interval_bool v :
  in_unit_interval v ↔ ge_zero v = true ∧ le_one v = true.
Proof.
  destruct v as [q|]; simpl; [|split; [done|intros [? _]; done]].
  by rewrite !bool_decide_eq_true.
Qed.

Lemma check_output_run out image_size w :
  check_output out image_size w = (Ret (), w) ∧ output_valid image_size out
  ∨ (∃ e, check_output out image_size w = (Raise e, w)
          ∧ (values out ≠ [] → exn_cls e = AssertionError ∧ ¬ output_valid image_size out)).
Proof.
  unfold check_output, np_min, np_max, output_valid.
  destruct (values out) as [|v vs] eqn:Hvs.
  { right. eexists. split; [reflexivity|done]. }
  unfold mbind, M_bind, mret, M_ret, py_assert, raise. cbv beta iota.
  destruct (ge_zero (foldl fmin v vs) && le_one (foldl fmax v vs)) eqn:Hrange.
  - apply andb_true_iff in Hrange as [Hlo Hhi].
    apply foldl_fmin_ge_zero in Hlo. apply foldl_fmax_le_one in Hhi.
    assert (Forall in_unit_interval (v :: vs)) as Hall.
    { rewrite Forall_forall in Hlo, Hhi. apply Forall_forall. intros x Hx.
      apply in_unit_interval_bool. split; [by apply Hlo|by apply Hhi]. }
    case_bool_decide as Hshape.
    + left. split; [reflexivity|]. done.
    + right. eexists. split; [reflexivity|]. intros _. split; [done|]. intros [? _]. done.
  - right. eexists. split; [reflexivity|]. intros _. split; [done|].
    intros [_ Hall].
    apply andb_false_iff in Hrange as [Hlo|Hhi].
    + apply not_true_iff_false in Hlo. apply Hlo, foldl_fmin_ge_zero.
      eapply Forall_impl; [exact Hall|]. intros x Hx. by apply in_unit_interval_bool in Hx as [? ?].
    + apply not_true_iff_false in Hhi. apply Hhi, foldl_fmax_le_one.
      eapply Forall_impl; [exact Hall|]. intros x Hx. by apply in_unit_interval_bool in Hx as [? ?].
Qed.

(** Once the graph is loaded and run, an output that has elements and breaks
    the shape or the range makes the verifier raise [AssertionError]. *)
Lemma verify_onnx_assertion env onnx_path image_size w model out outs :
  importable env "onnx" = true →
  importable env "onnxruntime" = true →
  onnx_load env (fs w !! onnx_path) = Ret model →
  onnx_check_model env model = Ret () →
  onnx_model_info env model = Ret () →
  ort_load env (fs w !! onnx_path) = Ret () →
  session_run env (default "" (fs w !! onnx_path)) (S (tick w))
    (Tensor [1; 3; image_size; image_size]
       (random_values env (tick w) [1; 3; image_size; image_size])) = Ret (out :: outs) →
  ¬ output_valid image_size out →
  values out ≠ [] →
  ∃ msg w', verify_onnx env onnx_path image_size w = (Raise (Exn AssertionError msg), w').
Proof.
  intros Honnx Hort Hload Hcheck Hinfo Hsess Hrun Hbad Hne.
  unfold verify_onnx, try_or_return, ort_InferenceSession, np_random, call_session_run.
  munfold. rewrite Honnx, Hort. simpl. rewrite Hload. simpl. rewrite Hcheck, Hinfo. simpl.
  rewrite Hsess. simpl. rewrite Hrun. simpl.
  match goal with |- context [check_output out image_size ?w1] =>
    destruct (check_output_run out image_size w1) as [[_ Hvalid]|(e & -> & Hcls)]
  end; [done|].
  destruct (Hcls Hne) as [Hcls' _]. destruct e as [cls msg]. simpl in Hcls'. subst cls.
  eauto.
Qed.

(** C6, as the code has it. With [onnx] and [onnxruntime] installed: if
    [verify_onnx] returns, it returns [True], and the graph, run once on the
    random input of shape [1, 3, S, S] that the verifier drew, gave an output of
    shape [1, 1, S, S] whose elements all lie in the unit interval; if that
    output breaks the shape or the range, [verify_onnx] raises; the check
    itself raises [AssertionError] on every non-empty output that breaks the
    shape or the range, and so does [verify_onnx] when the graph loads and its
    output has elements. *)
Theorem verify_onnx_checks_output (env : Env) (onnx_path : string) (image_size : nat)
    (w : world) :
  importable env "onnx" = true →
  importable env "onnxruntime" = true →
  let dummy_input :=
    Tensor [1; 3; image_size; image_size]
      (random_values env (tick w) [1; 3; image_size; image_size]) in
  let inference :=
    session_run env (default "" (fs w !! onnx_path)) (S (tick w)) dummy_input in
  (∀ b w', verify_onnx env onnx_path image_size w = (Ret b, w') →
     b = true ∧ ∃ out outs, inference = Ret (out :: outs) ∧ output_valid image_size out)
  ∧ (∀ out outs, inference = Ret (out :: outs) → ¬ output_valid image_size out →
       ∃ e w', verify_onnx env onnx_path image_size w = (Raise e, w'))
  ∧ (∀ out w1, ¬ output_valid image_size out → values out ≠ [] →
       ∃ msg, check_output out image_size w1 = (Raise (Exn AssertionError msg), w1))
  ∧ (∀ model out outs,
       onnx_load env (fs w !! onnx_path) = Ret model →
       onnx_check_model env model = Ret () →
       onnx_model_info env model = Ret () →
       ort_load env (fs w !! onnx_path) = Ret () →
       inference = Ret (out :: outs) →
       ¬ output_valid image_size out → values out ≠ [] →
       ∃ msg w',
         verify_onnx env onnx_path image_size w = (Raise (Exn AssertionError msg), w')).
Proof.
  intros Honnx Hort dummy_input inference.
  assert (Haccept : ∀ b w', verify_onnx env onnx_path image_size w = (Ret b, w') →
     b = true ∧ ∃ out outs, inference = Ret (out :: outs) ∧ output_valid image_size out).
  { intros b w' H. unfold verify_onnx, try_or_return in H.
    rewrite run_bind, run_try_except, run_fmap, run_bind in H.
    rewrite (py_import_found _ _ _ Honnx), (py_import_found _ _ _ Hort) in H.
    cbv beta iota in H.
    apply bind_ret_inv in H as (f & w1 & [= <- <-] & H).
    apply bind_ret_inv in H as (model & w1 & [_ ->]%lift_result_ret_inv & H).
    apply bind_ret_inv in H as ([] & w1 & [= <-] & H).
    apply bind_ret_inv in H as ([] & w2 & [_ ->]%lift_result_ret_inv & H).
    apply bind_ret_inv in H as ([] & w2 & [_ ->]%lift_result_ret_inv & H).
    apply bind_ret_inv in H as (session & w2 & Hsess & H).
    unfold ort_InferenceSession in Hsess.
    apply bind_ret_inv in Hsess as (f & w3 & [= <- <-] & Hsess).
    apply bind_ret_inv in Hsess as ([] & w3 & [_ ->]%lift_result_ret_inv & Hsess).
    injection Hsess as <- <-.
    apply bind_ret_inv in H as (x & w2 & [= <- <-] & H).
    apply bind_ret_inv in H as (outputs & w2 & Hrun & H).
    unfold call_session_run in Hrun.
    apply bind_ret_inv in Hrun as (k & w3 & [= <- <-] & Hrun).
    apply bind_ret_inv in Hrun as ([] & w3 & [= <-] & Hrun).
    apply lift_result_ret_inv in Hrun as [Hrun ->].
    apply bind_ret_inv in H as (output & w2 & Hfirst & H).
    destruct outputs as [|out outs]; [done|]. injection Hfirst as <- <-.
    apply bind_ret_inv in H as ([] & w2 & Hcheck & H).
    destruct (check_output_run out image_size
                {| fs := fs w; heap := heap w; tick := S (S (tick w));
                   trace := (trace w ++ [EvCheckModel onnx_path]) ++ [EvSessionRun onnx_path] |})
      as [[_ Hvalid]|(e & He & _)]; [|simpl in *; congruence].
    split.
    - apply bind_ret_inv in H as (start & w3 & _ & H).
      apply bind_ret_inv in H as (o & w4 & _ & H).
      apply bind_ret_inv in H as (stop & w5 & _ & H).
      apply bind_ret_inv in H as (fps & w6 & _ & H).
      by injection H as <- _.
    - exists out, outs. split; [exact Hrun|exact Hvalid]. }
  split_and!; [exact Haccept| | |by eauto using verify_onnx_assertion].
  - intros out outs Hinf Hbad.
    destruct (verify_onnx env onnx_path image_size w) as [[b|e] w'] eqn:Hv; [|by eauto].
    destruct (Haccept b w' eq_refl) as (_ & out' & outs' & Hinf' & Hvalid).
    rewrite Hinf in Hinf'. injection Hinf' as <- <-. done.
  - intros out w1 Hbad Hne.
    destruct (check_output_run out image_size w1) as [[_ Hvalid]|(e & He & Hcls)]; [done|].
    destruct (Hcls Hne) as [Hcls' _]. destruct e as [cls msg]. simpl in Hcls'. subst cls.
    by exists msg.
Qed.

(** C6 fails as stated: without the packages the verifier accepts a graph
    whose output, on every input, has the wrong shape and a value above 1, and
    raises nothing. *)
Lemma verify_onnx_accepts_unchecked_graph :
  verify_onnx env_no_packages "broken.onnx" 256 (world_with_file "broken.onnx" "garbage")
  = (Ret true, world_with_file "broken.onnx" "garbage")
  ∧ ∀ k x, ∃ out,
      session_run env_no_packages "garbage" k x = Ret [out]
      ∧ ¬ output_valid 256 out.
Proof.
  split; [vm_compute; reflexivity|].
  intros k x. eexists. split; [reflexivity|].
  intros [Hshape _]. discriminate Hshape.
Qed.

Lemma verify_onnx_checks_output_witness :
  importable env_all_ok "onnx" = true
  ∧ importable env_all_ok "onnxruntime" = true
  ∧ (verify_onnx env_all_ok "m.onnx" 1 (world_with_file "m.onnx" "float32-graph")).1 = Ret true
  ∧ ∃ out outs,
      session_run env_all_ok "float32-graph" 1
        (Tensor [1; 3; 1; 1] (random_values env_all_ok 0 [1; 3; 1; 1])) = Ret (out :: outs)
      ∧ output_valid 1 out.
Proof.
  split; [reflexivity|]. split; [reflexivity|]. split; [vm_compute; reflexivity|].
  destruct (verify_onnx env_all_ok "m.onnx" 1 (world_with_file "m.onnx" "float32-graph"))
    as [r w'] eqn:Hrun.
  assert (Hr : r = Ret true).
  { change r with (r, w').1. rewrite <- Hrun. vm_compute. reflexivity. }
  subst r.
  exact (proj2 (proj1 (verify_onnx_checks_output env_all_ok "m.onnx" 1
                         (world_with_file "m.onnx" "float32-graph") eq_refl eq_refl)
                  true w' Hrun)).
Defined.


(** ** The graph optimiser *)

(** With neither optimiser installed the input is copied to the output path
    and the function returns [False]. *)
Lemma optimize_graph_both_unavailable env input_path output_path content w :
  importable env "onnxruntime" = false →
  importable env "onnx" = false ∨ importable env "onnxoptimizer" = false →
  fs w !! input_path = Some content →
  input_path ≠ output_path →
  optimize_graph env input_path output_path w
  = (Ret false,
     World (<[output_path := content]> (fs w)) (heap w) (tick w)
       (trace w ++ [EvStage "optimize_graph" input_path output_path;
                    EvCopy input_path output_path])).
Proof.
  intros Hort Hopt Hin Hne.
  unfold optimize_graph, optimize_with_ort, optimize_with_onnxoptimizer. munfold.
  rewrite Hort. simpl.
  destruct (importable env "onnx") eqn:Honnx; simpl.
  - destruct Hopt as [?|Hopt]; [done|]. rewrite Hopt. simpl.
    rewrite Hin. rewrite bool_decide_eq_false_2 by done. simpl.
    by rewrite <- app_assoc.
  - rewrite Hin. rewrite bool_decide_eq_false_2 by done. simpl.
    by rewrite <- app_assoc.
Qed.

(** A failure of the primary optimiser, be it a missing package or an
    exception of the session, is caught: the secondary optimiser runs, and when
    it succeeds its graph is the output. *)
Lemma optimize_graph_falls_to_secondary env input_path output_path w model optimized content :
  importable env "onnxruntime" = false ∨ raises (ort_optimize env (fs w !! input_path)) = true →
  importable env "onnx" = true →
  importable env "onnxoptimizer" = true →
  fs w !! input_path = Some content →
  onnx_load env (Some content) = Ret model →
  onnxoptimizer_optimize env model onnxoptimizer_passes = Ret optimized →
  ∃ tr, optimize_graph env input_path output_path w
        = (Ret true, World (<[output_path := optimized]> (fs w)) (heap w) (tick w) tr).
Proof.
  intros Hprimary Honnx Hopt Hin Hload Hrun.
  unfold optimize_graph, optimize_with_ort, ort_optimizing_session,
    optimize_with_onnxoptimizer. munfold.
  assert (Hout : <[output_path := optimized]> (fs w) !! output_path = Some optimized)
    by apply lookup_insert_eq.
  assert (Hin' : ∃ c, <[output_path := optimized]> (fs w) !! input_path = Some c).
  { destruct (decide (output_path = input_path)) as [->|Hne].
    - exists optimized. apply lookup_insert_eq.
    - exists content. by rewrite lookup_insert_ne. }
  destruct Hin' as [c Hin'].
  destruct (importable env "onnxruntime"); simpl.
  - destruct Hprimary as [?|Hraise]; [done|]. rewrite Hin in *.
    destruct (ort_optimize env (Some content)); [done|]. simpl.
    rewrite Honnx, Hopt. simpl. rewrite Hin, Hload. simpl. rewrite Hrun. simpl.
    rewrite Hin'. simpl. rewrite Hout. simpl. eauto.
  - rewrite Honnx, Hopt. simpl. rewrite Hin, Hload. simpl. rewrite Hrun. simpl.
    rewrite Hin'. simpl. rewrite Hout. simpl. eauto.
Qed.

(** An exception of the secondary optimiser that is not an [ImportError]
    leaves the function. *)
Lemma optimize_graph_secondary_escapes env input_path output_path w e :
  importable env "onnxruntime" = false →
  importable env "onnx" = true →
  importable env "onnxoptimizer" = true →
  onnx_load env (fs w !! input_path) = Raise e ∨
  (∃ model, onnx_load env (fs w !! input_path) = Ret model
            ∧ onnxoptimizer_optimize env model onnxoptimizer_passes = Raise e) →
  exn_cls e ≠ ImportError →
  ∃ w', optimize_graph env input_path output_path w = (Raise e, w') ∧ fs w' = fs w.
Proof.
  intros Hort Honnx Hopt Hfail Hcls.
  unfold optimize_graph, optimize_with_ort, optimize_with_onnxoptimizer. munfold.
  rewrite Hort, Honnx, Hopt. simpl.
  destruct Hfail as [Hload|(model & Hload & Hfail)].
  - rewrite Hload. simpl. rewrite bool_decide_eq_false_2 by done. eauto.
  - rewrite Hload. simpl. rewrite Hfail. simpl.  rewrite bool_decide_eq_false_2 by done. eauto.
Qed.

(** C1, at the input where the code departs from it: [onnxruntime] is not
    installed, [onnxoptimizer] is installed and raises [RuntimeError] on the
    graph. [optimize_graph] raises that error to its caller and writes no
    output file, where the claim has it fall through to the copy. *)
Theorem optimize_graph_raises_on_secondary_failure :
  optimize_graph env_secondary_raises "m.onnx" "m_optimized.onnx"
    (world_with_file "m.onnx" "float32-graph")
  = (Raise (Exn RuntimeError "unsupported operator"),
     World {[ "m.onnx" := "float32-graph" ]} [] 0
       [EvStage "optimize_graph" "m.onnx" "m_optimized.onnx";
        EvOnnxOptimizer "m.onnx" "m_optimized.onnx"]).
Proof. vm_compute. reflexivity. Qed.

(** ** The static quantiser *)

Lemma quantize_with_fallback_run env quant_input output_path reader r w :
  heap w !! reader = Some r →
  let a := quantize_static env qdq_config (fs w !! quant_input)
             (CalibrationDataReader.remaining r) in
  let r1 := CalibrationDataReader.rewind (CalibrationDataReader.read a.1 r) in
  let b := quantize_static env qoperator_config (fs w !! quant_input)
             (CalibrationDataReader.remaining r1) in
  let ev_a ok := EvQuantizeStatic QDQ quant_input output_path
                   (CalibrationDataReader.current r) ok in
  let ev_b ok := EvQuantizeStatic QOperator quant_input output_path 0 ok in
  quantize_with_fallback env quant_input output_path reader w
  = match a.2 with
    | Ret q =>
        (Ret (), World (<[output_path := q]> (fs w))
                   (<[reader := CalibrationDataReader.read a.1 r]> (heap w)) (tick w)
                   (trace w ++ [ev_a true]))
    | Raise _ =>
        match b.2 with
        | Ret q =>
            (Ret (), World (<[output_path := q]> (fs w))
                       (<[reader := CalibrationDataReader.read b.1 r1]> (heap w)) (tick w)
                       (trace w ++ [ev_a false; EvRewind; ev_b true]))
        | Raise e =>
            (Raise e, World (fs w)
                        (<[reader := CalibrationDataReader.read b.1 r1]> (heap w)) (tick w)
                        (trace w ++ [ev_a false; EvRewind; ev_b false]))
        end
    end.
Proof.
  intros Hr. cbv zeta.
  unfold quantize_with_fallback, call_quantize_static, call_rewind. munfold. rewrite Hr.
  destruct (quantize_static env qdq_config (fs w !! quant_input)
              (CalibrationDataReader.remaining r)) as [ka [qa|ea]] eqn:Ha; simpl.
  - reflexivity.
  - assert (Hlt : reader < length (heap w)) by (by eapply lookup_lt_Some).
    rewrite list_lookup_insert_eq by done. simpl.
    rewrite list_lookup_insert_eq by (by rewrite length_insert). simpl.
    destruct (quantize_static env qoperator_config (fs w !! quant_input) _)
      as [kb [qb|eb]] eqn:Hb; simpl.
    + rewrite !list_insert_insert_eq, <- !app_assoc. reflexivity.
    + rewrite !list_insert_insert_eq, <- !app_assoc. reflexivity.
Qed.

Lemma preprocess_graph_run env input_path w :
  preprocess_graph env input_path w
  = if importable env "onnxruntime.quantization.preprocess" then
      let pre := preprocessed_path_of input_path in
      match quant_pre_process env (fs w !! input_path) with
      | Ret p => (Ret pre, World (<[pre := p]> (fs w)) (heap w) (tick w)
                             (trace w ++ [EvQuantPreProcess input_path pre]))
      | Raise _ => (Ret input_path, World (fs w) (heap w) (tick w)
                                      (trace w ++ [EvQuantPreProcess input_path pre]))
      end
    else (Ret input_path, w).
Proof.
  unfold preprocess_graph. munfold.
  destruct (importable env "onnxruntime.quantization.preprocess"); [|done].
  simpl. destruct (quant_pre_process env (fs w !! input_path)); done.
Qed.

Lemma remove_preprocessed_run input_path w :
  remove_preprocessed input_path w
  = let pre := preprocessed_path_of input_path in
    match fs w !! pre with
    | Some _ => (Ret (), World (delete pre (fs w)) (heap w) (tick w) (trace w ++ [EvRemove pre]))
    | None => (Ret (), w)
    end.
Proof.
  unfold remove_preprocessed. munfold. cbv zeta.
  destruct (fs w !! preprocessed_path_of input_path) eqn:Hpre; simpl.
  - by rewrite Hpre.
  - done.
Qed.

Lemma megabytes_zero n : megabytes n = 0%Qc → n = 0.
Proof.
  unfold megabytes. intros H.
  destruct (decide (n = 0)) as [|Hn]; [done|]. exfalso.
  apply Qcmult_integral in H as [H|H].
  - apply (f_equal Qcanon.this) in H. simpl in H.
    injection H. destruct n; [done|]. discriminate.
  - discriminate H.
Qed.

Lemma report_size_reduction_world input_path output_path w :
  (report_size_reduction input_path output_path w).2 = w.
Proof.
  unfold report_size_reduction, size_reduction, py_div. munfold.
  destruct (fs w !! input_path); [|done]. simpl.
  destruct (fs w !! output_path); [|done]. simpl.
  case_bool_decide; done.
Qed.

Lemma report_size_reduction_ok input_path output_path w content quantized :
  fs w !! input_path = Some content → content ≠ "" →
  fs w !! output_path = Some quantized →
  report_size_reduction input_path output_path w = (Ret (), w).
Proof.
  intros Hin Hne Hout.
  unfold report_size_reduction, size_reduction, py_div. munfold.
  rewrite Hin, Hout. simpl.
  rewrite bool_decide_eq_false_2; [done|].
  intros H%megabytes_zero. by destruct content.
Qed.


Lemma cleanup_and_report input_path output_path (f : gmap string string) hp tk tr q res w' :
  (remove_preprocessed input_path;; report_size_reduction input_path output_path;;
   (mret true : M bool)) (World (<[output_path := q]> f) hp tk tr) = (res, w') →
  ∃ post,
    (post = [] ∨ post = [EvRemove (preprocessed_path_of input_path)])
    ∧ trace w' = tr ++ post
    ∧ fs w' !! preprocessed_path_of input_path = None
    ∧ (res = Ret true ∨ ∃ e, res = Raise e)
    ∧ (distinct_nonempty_input f input_path output_path → res = Ret true).
Proof.
  rewrite run_bind, remove_preprocessed_run. cbv zeta. simpl fs.
  set (pre := preprocessed_path_of input_path).
  assert (∀ w1, (∃ post, (post = [] ∨ post = [EvRemove pre]) ∧ trace w1 = tr ++ post)
            → fs w1 !! pre = None
            → (distinct_nonempty_input f input_path output_path →
               fs w1 !! input_path = f !! input_path ∧ fs w1 !! output_path = Some q)
            → (report_size_reduction input_path output_path ≫= λ _, (mret true : M bool)) w1
              = (res, w')
            → ∃ post, (post = [] ∨ post = [EvRemove pre]) ∧ trace w' = tr ++ post
                      ∧ fs w' !! pre = None
                      ∧ (res = Ret true ∨ ∃ e, res = Raise e)
                      ∧ (distinct_nonempty_input f input_path output_path → res = Ret true))
    as Hreport.
  { intros w1 (post & Hpost & Htr) Hpre Hfiles. rewrite run_bind.
    pose proof (report_size_reduction_world input_path output_path w1) as Hw.
    destruct (report_size_reduction input_path output_path w1) as [[[]|e] w2] eqn:Hrep;
      simpl in Hw; subst w2.
    - intros [= <- <-]. exists post. split_and!; auto.
    - intros [= <- <-]. exists post. split_and!; eauto.
      intros Hok. destruct (Hfiles Hok) as [Hin Hout].
      destruct Hok as ((content & Hc & Hne) & _).
      rewrite (report_size_reduction_ok _ _ _ content q) in Hrep; [done| |done..].
      by rewrite Hin. }
  destruct (<[output_path:=q]> f !! pre) as [c|] eqn:Hlook; cbv beta iota.
  - apply Hreport; simpl.
    + exists [EvRemove pre]. auto.
    + apply lookup_delete_eq.
    + intros (_ & Hio & Hpi & Hpo).
      rewrite !lookup_delete_ne by done. rewrite lookup_insert_ne by done.
      by rewrite lookup_insert_eq.
  - apply Hreport; simpl.
    + exists []. rewrite app_nil_r. auto.
    + done.
    + intros (_ & Hio & Hpi & Hpo). rewrite lookup_insert_ne by done.
      by rewrite lookup_insert_eq.
Qed.

Lemma static_quantize_model_unfold env input_path output_path image_size calibration_dir
    calibration_samples w :
  importable env "onnxruntime.quantization" = true →
  static_quantize_model env input_path output_path image_size calibration_dir
    calibration_samples w
  = let w0 := World (fs w) (heap w) (tick w)
                (trace w ++ [EvStage "static_quantize_model" input_path output_path]) in
    match CalibrationDataReader__init__ env image_size calibration_dir calibration_samples w0
    with
    | (Raise e, w1) => (Raise e, w1)
    | (Ret r, w1) =>
        let w2 := World (fs w1) (heap w1 ++ [r]) (tick w1) (trace w1) in
        match preprocess_graph env input_path w2 with
        | (Raise e, w3) => (Raise e, w3)
        | (Ret quant_input, w3) =>
            quantize_and_report env input_path output_path quant_input (length (heap w1)) w3
        end
    end.
Proof.
  intros Himp. unfold static_quantize_model, quantize_and_report. munfold.
  rewrite Himp. cbv beta iota zeta.
  destruct (CalibrationDataReader__init__ _ _ _ _ _) as [[r|e] w1]; [|done].
  cbv beta iota.
  destruct (preprocess_graph _ _ _) as [[qi|e] w3]; done.
Qed.

Ltac elem_of_list H :=
  repeat (apply elem_of_cons in H as [H|H]; [try discriminate H|]);
  try (apply elem_of_nil in H; destruct H).


Lemma quantize_and_report_cases env input_path output_path quant_input reader r w res w' :
  heap w !! reader = Some r →
  CalibrationDataReader.current r = 0 →
  quantize_and_report env input_path output_path quant_input reader w = (res, w') →
  let ev_a := EvQuantizeStatic QDQ quant_input output_path 0 in
  let ev_b := EvQuantizeStatic QOperator quant_input output_path 0 in
  (∃ e, res = Raise e ∧ trace w' = trace w ++ [ev_a false; EvRewind; ev_b false])
  ∨ (∃ attempts post,
       (attempts = [ev_a true] ∨ attempts = [ev_a false; EvRewind; ev_b true])
       ∧ (post = [] ∨ post = [EvRemove (preprocessed_path_of input_path)])
       ∧ trace w' = trace w ++ attempts ++ post
       ∧ fs w' !! preprocessed_path_of input_path = None
       ∧ (res = Ret true ∨ ∃ e, res = Raise e)
       ∧ (distinct_nonempty_input (fs w) input_path output_path → res = Ret true)).
Proof.
  intros Hr Hcur. unfold quantize_and_report. rewrite run_bind.
  rewrite (quantize_with_fallback_run _ _ _ _ r) by done. cbv zeta. rewrite Hcur.
  destruct (quantize_static env qdq_config _ _) as [ka [qa|ea]]; simpl snd; cbv iota.
  - intros H. right.
    apply cleanup_and_report in H as (post & Hpost & Htr & Hpre & Hres & Hok).
    exists [EvQuantizeStatic QDQ quant_input output_path 0 true], post.
    rewrite Htr, <- app_assoc. split_and!; auto.
  - destruct (quantize_static env qoperator_config _ _) as [kb [qb|eb]]; simpl snd; cbv iota.
    + intros H. right.
      apply cleanup_and_report in H as (post & Hpost & Htr & Hpre & Hres & Hok).
      eexists _, post. rewrite Htr, <- app_assoc. split_and!; [by right|done..].
    + intros [= <- <-]. left. eauto.
Qed.

Lemma rewinds_app evs1 evs2 : rewinds (evs1 ++ evs2) = rewinds evs1 + rewinds evs2.
Proof. unfold rewinds. by rewrite filter_app, length_app. Qed.

(** C3, as the code has it. Take any run of [static_quantize_model] and the
    calls [evs] it logs. Without the quantisation package the run returns [False] and touches
    no file. If the QDQ attempt raised, the reader was rewound exactly once and
    the log reads: QDQ attempt from position 0, [rewind], QOperator attempt from
    position 0. If both attempts raised, the run raises. Conversely, for an
    existing non-empty input and distinct input, output and intermediate paths,
    a run that reached an attempt returns [True] unless both attempts raised.
    The [try] statement around the two attempts itself raises exactly when both
    attempts raise, the second one being made on the rewound reader. *)
Theorem static_quantize_format_fallback (env : Env) (input_path output_path : string)
    (image_size : nat) (calibration_dir : option string) (calibration_samples : nat)
    (w w' : world) (res : result bool) :
  static_quantize_model env input_path output_path image_size calibration_dir
    calibration_samples w = (res, w') →
  ∃ evs, trace w' = trace w ++ evs
  ∧ (importable env "onnxruntime.quantization" = false → res = Ret false ∧ fs w' = fs w)
  ∧ (∀ src cur, EvQuantizeStatic QDQ src output_path cur false ∈ evs →
       rewinds evs = 1
       ∧ ∃ pre post ok,
           evs = pre ++ [EvQuantizeStatic QDQ src output_path 0 false; EvRewind;
                         EvQuantizeStatic QOperator src output_path 0 ok] ++ post)
  ∧ (∀ src cur cur',
       EvQuantizeStatic QDQ src output_path cur false ∈ evs →
       EvQuantizeStatic QOperator src output_path cur' false ∈ evs →
       ∃ e, res = Raise e)
  ∧ (distinct_nonempty_input (fs w) input_path output_path →
     (∃ fmt src cur ok, EvQuantizeStatic fmt src output_path cur ok ∈ evs) →
     res = Ret true
     ∨ ∃ e src, res = Raise e
                ∧ EvQuantizeStatic QDQ src output_path 0 false ∈ evs
                ∧ EvQuantizeStatic QOperator src output_path 0 false ∈ evs)
  ∧ (∀ quant_input reader r w0,
       heap w0 !! reader = Some r →
       let a := quantize_static env qdq_config (fs w0 !! quant_input)
                  (CalibrationDataReader.remaining r) in
       let r1 := CalibrationDataReader.rewind (CalibrationDataReader.read a.1 r) in
       let b := quantize_static env qoperator_config (fs w0 !! quant_input)
                  (CalibrationDataReader.remaining r1) in
       raises (quantize_with_fallback env quant_input output_path reader w0).1
       = raises a.2 && raises b.2).
Proof.
  assert (Hblock : ∀ quant_input reader r w0,
       heap w0 !! reader = Some r →
       let a := quantize_static env qdq_config (fs w0 !! quant_input)
                  (CalibrationDataReader.remaining r) in
       let r1 := CalibrationDataReader.rewind (CalibrationDataReader.read a.1 r) in
       let b := quantize_static env qoperator_config (fs w0 !! quant_input)
                  (CalibrationDataReader.remaining r1) in
       raises (quantize_with_fallback env quant_input output_path reader w0).1
       = raises a.2 && raises b.2).
  { intros quant_input reader r w0 Hr. cbv zeta.
    rewrite (quantize_with_fallback_run _ _ _ _ r) by done. cbv zeta.
    destruct (quantize_static env qdq_config _ _) as [ka [qa|ea]]; [done|].
    simpl. by destruct (quantize_static env qoperator_config _ _) as [kb [qb|eb]]. }
  destruct (importable env "onnxruntime.quantization") eqn:Himp.
  2:{ unfold static_quantize_model. munfold.
      rewrite Himp. simpl. intros [= <- <-]. simpl.
      eexists. split; [reflexivity|]. split_and!; try done.
      - intros src cur H. elem_of_list H.
      - intros src cur cur' H. elem_of_list H.
      - intros _ (fmt & src & cur & ok & H). elem_of_list H. }
  rewrite static_quantize_model_unfold by done. cbv zeta.
  destruct (CalibrationDataReader__init__ _ _ _ _ _) as [[r|e] w1] eqn:Hinit.
  2:{ apply init_frame in Hinit as (_ & _ & Htr & _). simpl in Htr.
      intros [= <- <-]. eexists. split; [exact Htr|]. split_and!; try done.
      - intros src cur H. elem_of_list H.
      - intros src cur cur' H. elem_of_list H.
      - intros _ (fmt & src & cur & ok & H). elem_of_list H. }
  apply init_frame in Hinit as (Hfs1 & Hheap1 & Htr1 & Hcur). simpl in Hfs1, Hheap1, Htr1.
  specialize (Hcur r eq_refl).
  assert (∃ quant_input w3 prep,
            preprocess_graph env input_path
              (World (fs w1) (heap w1 ++ [r]) (tick w1) (trace w1)) = (Ret quant_input, w3)
            ∧ heap w3 = heap w1 ++ [r]
            ∧ trace w3 = trace w ++ EvStage "static_quantize_model" input_path output_path
                                    :: prep
            ∧ (prep = [] ∨ prep = [EvQuantPreProcess input_path
                                     (preprocessed_path_of input_path)])
            ∧ (distinct_nonempty_input (fs w) input_path output_path →
               distinct_nonempty_input (fs w3) input_path output_path))
    as (quant_input & w3 & prep & -> & Hheap3 & Htr3 & Hprep & Hfiles).
  { rewrite preprocess_graph_run. simpl. rewrite Htr1, Hfs1.
    destruct (importable env "onnxruntime.quantization.preprocess").
    - destruct (quant_pre_process env (fs w !! input_path)) as [p|e].
      + eexists _, _, _. split; [reflexivity|]. simpl.
        split_and!; [done|by rewrite <- app_assoc|by right|].
        intros ((content & Hc & Hne) & Hio & Hpi & Hpo).
        split_and!; try done. exists content. by rewrite lookup_insert_ne.
      + eexists _, _, _. split; [reflexivity|]. simpl.
        split_and!; [done|by rewrite <- app_assoc|by right|done].
    - eexists _, _, []. split; [reflexivity|]. simpl.
      split_and!; [done|done|by left|done]. }
  intros Hrun.
  apply (quantize_and_report_cases _ _ _ _ _ r) in Hrun; [|by rewrite Hheap3, lookup_app_r, Nat.sub_diag|done].
  cbv zeta in Hrun.
  assert (Hprep_rw : rewinds (EvStage "static_quantize_model" input_path output_path :: prep)
                     = 0) by (by destruct Hprep as [-> | ->]).
  assert (Hprep_in : ∀ fmt src cur ok,
            EvQuantizeStatic fmt src output_path cur ok
              ∈ EvStage "static_quantize_model" input_path output_path :: prep → False).
  { intros fmt src cur ok H. destruct Hprep as [-> | ->]; elem_of_list H. }
  destruct Hrun as [(e & -> & Htr)|(attempts & post & Hatt & Hpost & Htr & _ & Hres & Hok)].
  - eexists. split; [rewrite Htr, Htr3, <- app_assoc; reflexivity|].
    split_and!; [done| | | |exact Hblock].
    + intros src cur [H|H]%elem_of_app; [by apply Hprep_in in H|].
      elem_of_list H. injection H as -> ->.
      split; [by rewrite rewinds_app, Hprep_rw|]. eexists _, [], false. by rewrite app_nil_r.
    + eauto.
    + intros _ _. right. exists e, quant_input.
      split_and!; [done|..]; rewrite elem_of_app, !elem_of_cons; auto 6.
  - eexists. split; [rewrite Htr, Htr3, <- !app_assoc; reflexivity|].
    assert (Hpost_rw : rewinds post = 0) by (by destruct Hpost as [-> | ->]).
    split_and!; [done| | | |exact Hblock].
    + intros src cur [H|H]%elem_of_app; [by apply Hprep_in in H|].
      apply elem_of_app in H as [H|H]; [|destruct Hpost as [-> | ->]; elem_of_list H].
      destruct Hatt as [-> | ->]; elem_of_list H. injection H as -> ->.
      split; [by rewrite !rewinds_app, Hprep_rw, Hpost_rw|]. by eexists _, post, true.
    + intros src cur cur' _ [H|H]%elem_of_app; [by apply Hprep_in in H|].
      apply elem_of_app in H as [H|H]; [|destruct Hpost as [-> | ->]; elem_of_list H].
      destruct Hatt as [-> | ->]; elem_of_list H.
    + intros Hfs _. left. auto.
Qed.

Lemma static_quantize_format_fallback_witness :
  (static_quantize_model env_qdq_fails "m.onnx" "m_static_int8.onnx" 1 None 2
     (world_with_file "m.onnx" "float32-graph")).1 = Ret true
  ∧ rewinds (trace (static_quantize_model env_qdq_fails "m.onnx" "m_static_int8.onnx" 1 None 2
                      (world_with_file "m.onnx" "float32-graph")).2) = 1.
Proof.
  split; [vm_compute; reflexivity|].
  destruct (static_quantize_model env_qdq_fails "m.onnx" "m_static_int8.onnx" 1 None 2
              (world_with_file "m.onnx" "float32-graph")) as [res w'] eqn:Hrun.
  destruct (static_quantize_format_fallback _ _ _ _ _ _ _ _ _ Hrun)
    as (evs & Htr & _ & Hrewind & _).
  simpl in Htr. simpl. rewrite Htr.
  apply (Hrewind "m_preprocessed.onnx" 0).
  rewrite <- Htr. change w' with (res, w').2. rewrite <- Hrun.
  vm_compute. do 2 apply list_elem_of_further. apply list_elem_of_here.
Defined.

(** C3 fails as stated: the stage raises to its caller in runs in which the
    two format attempts did not both raise. In the first run the calibration
    directory exists and PIL is not installed: building the sample source
    raises [ImportError] before any attempt is made. In the second run the
    input path [model.bin] does not contain [.onnx], so that the intermediate
    path is the input path: the QDQ attempt raises, the QOperator attempt
    returns and the quantised graph is written, then the cleanup removes the
    input file and the size report raises [FileNotFoundError]. *)
Lemma static_quantize_raises_without_two_failed_attempts :
  (static_quantize_model env_pil_missing "m.onnx" "m_static_int8.onnx" 1 (Some "calib") 2
     (world_with_file "m.onnx" "float32-graph")).1
  = Raise (Exn ImportError "No module named PIL")
  ∧ trace (static_quantize_model env_pil_missing "m.onnx" "m_static_int8.onnx" 1
             (Some "calib") 2 (world_with_file "m.onnx" "float32-graph")).2
    = [EvStage "static_quantize_model" "m.onnx" "m_static_int8.onnx"]
  ∧ (static_quantize_model env_qdq_fails "model.bin" "model_int8.bin" 1 None 2
       (world_with_file "model.bin" "float32-graph")).1
    = Raise (Exn FileNotFoundError "model.bin")
  ∧ trace (static_quantize_model env_qdq_fails "model.bin" "model_int8.bin" 1 None 2
             (world_with_file "model.bin" "float32-graph")).2
    = [EvStage "static_quantize_model" "model.bin" "model_int8.bin";
       EvQuantPreProcess "model.bin" "model.bin";
       EvQuantizeStatic QDQ "model.bin" "model_int8.bin" 0 false;
       EvRewind;
       EvQuantizeStatic QOperator "model.bin" "model_int8.bin" 0 true;
       EvRemove "model.bin"]
  ∧ fs (static_quantize_model env_qdq_fails "model.bin" "model_int8.bin" 1 None 2
          (world_with_file "model.bin" "float32-graph")).2 !! "model_int8.bin"
    = Some "static-int8-graph".
Proof. split_and!; vm_compute; reflexivity. Qed.

(** When the function returns, the intermediate file is gone. *)
Lemma static_quantize_model_cleans_up_on_return env input_path output_path image_size
    calibration_dir calibration_samples w b w' :
  importable env "onnxruntime.quantization" = true →
  static_quantize_model env input_path output_path image_size calibration_dir
    calibration_samples w = (Ret b, w') →
  fs w' !! preprocessed_path_of input_path = None.
Proof.
  intros Himp. rewrite static_quantize_model_unfold by done. cbv zeta.
  destruct (CalibrationDataReader__init__ _ _ _ _ _) as [[r|e] w1] eqn:Hinit; [|done].
  apply init_frame in Hinit as (_ & _ & _ & Hcur). specialize (Hcur r eq_refl).
  rewrite preprocess_graph_run. simpl.
  assert (Hlook : ∀ tr f, heap (World f (heap w1 ++ [r]) (tick w1) tr) !! length (heap w1)
                          = Some r).
  { intros tr f. simpl. by rewrite lookup_app_r, Nat.sub_diag. }
  destruct (importable env "onnxruntime.quantization.preprocess");
    [destruct (quant_pre_process env (fs w1 !! input_path))|];
    intros Hrun;
    apply (quantize_and_report_cases _ _ _ _ _ r) in Hrun; try done;
    by destruct Hrun as [(? & [=] & _)|(_ & _ & _ & _ & _ & Hgone & _)].
Qed.

(** C2, at the input where the code departs from it: the pre-processing step
    succeeds and writes the intermediate file, then both format attempts raise.
    [static_quantize_model] raises the second error to its caller, and the
    intermediate file, which did not exist before the call, is still there. *)
Theorem static_quantize_model_leaves_intermediate_file :
  fs (world_with_file "m.onnx" "float32-graph") !! "m_preprocessed.onnx" = None
  ∧ (static_quantize_model env_static_fails "m.onnx" "m_static_int8.onnx" 1 None 2
       (world_with_file "m.onnx" "float32-graph")).1
    = Raise (Exn RuntimeError "quantization failed")
  ∧ fs (static_quantize_model env_static_fails "m.onnx" "m_static_int8.onnx" 1 None 2
          (world_with_file "m.onnx" "float32-graph")).2 !! "m_preprocessed.onnx"
    = Some "preprocessed-graph".
Proof. split_and!; vm_compute; reflexivity. Qed.

(** ** The variants and the current best *)

Lemma dict_lookup_set_eq d k v : dict_lookup (dict_set d k v) k = Some v.
Proof.
  induction d as [|[k' v'] d IH]; simpl.
  - by rewrite bool_decide_eq_true_2.
  - case_bool_decide as Hk; simpl.
    + by rewrite bool_decide_eq_true_2.
    + by rewrite bool_decide_eq_false_2.
Qed.

Lemma dict_lookup_set_ne d k k' v : k ≠ k' → dict_lookup (dict_set d k v) k' = dict_lookup d k'.
Proof.
  intros Hne. induction d as [|[k0 v0] d IH]; simpl.
  - by rewrite bool_decide_eq_false_2.
  - case_bool_decide as Hk; simpl.
    + subst k0. by rewrite !bool_decide_eq_false_2.
    + case_bool_decide; [done|]. apply IH.
Qed.

Lemma register_best_is_variant st name path : best_is_variant (register st name path).
Proof. exists name. apply dict_lookup_set_eq. Qed.

(** A stage of [main]: it runs a producer when its flag is set, and records
    the variant when the producer returns [True]. *)
Lemma stage_cases (flag : bool) (producer : M bool) (st : pipeline_state) name path w :
  (if flag then (ok ← producer; if ok : bool then mret (register st name path) else mret st)
   else mret st) w
  = if flag then
      match producer w with
      | (Ret true, w') => (Ret (register st name path), w')
      | (Ret false, w') => (Ret st, w')
      | (Raise e, w') => (Raise e, w')
      end
    else (Ret st, w).
Proof.
  destruct flag; [|done]. rewrite run_bind.
  by destruct (producer w) as [[[]|e] w'].
Qed.

Lemma stage_result (flag : bool) (producer : M bool) (st : pipeline_state) name path w st' w' :
  (if flag then (ok ← producer; if ok : bool then mret (register st name path) else mret st)
   else mret st) w = (Ret st', w') →
  st' = if flag && returned_true (producer w).1 then register st name path else st.
Proof.
  rewrite stage_cases. destruct flag; [|by intros [= <- <-]].
  destruct (producer w) as [[[]|e] w1]; simpl; by intros [= <- <-].
Qed.

(** C7. After the export step [current_best] is the path of the entry
    [float32] of [model_variants]; each of the three optional steps keeps
    [current_best] among the paths of [model_variants]; a step changes the two
    variables exactly when its flag is set and its producer returns [True], and
    then it records its variant under its name and makes it the current best,
    whatever was best before; and when [main] returns, the final state is the
    one the three steps left, with the invariant: the verification, the
    comparison report and the deployment change neither variable.
    [current_best] is a string, never [None]. *)
Theorem current_best_tracks_latest_variant (env : Env) (args : Args.t) :
  (∀ w size st w', step_export env args w = (Ret (size, st), w') →
     st = PipelineState [("float32", Args.output args)] (Args.output args)
     ∧ best_is_variant st)
  ∧ (∀ st w st' w', best_is_variant st →
       step_optimize env args st w = (Ret st', w')
       ∨ step_quantize env args st w = (Ret st', w')
       ∨ step_static_quantize env args st w = (Ret st', w') →
       best_is_variant st')
  ∧ (∀ st w st' w',
       (step_optimize env args st w = (Ret st', w') →
        st' = if Args.optimize args
                 && returned_true
                      (optimize_graph env (Args.output args) (optimized_path_of args) w).1
              then register st "optimized" (optimized_path_of args) else st)
       ∧ (step_quantize env args st w = (Ret st', w') →
          st' = if Args.quantize args
                   && returned_true
                        (quantize_model env (Args.output args) (quantized_path_of args) w).1
                then register st "dynamic-int8" (quantized_path_of args) else st)
       ∧ (step_static_quantize env args st w = (Ret st', w') →
          st' = if Args.static_quantize args
                   && returned_true
                        (static_quantize_model env
                           (dict_get (model_variants st) "optimized" (Args.output args))
                           (static_path_of args) (Args.image_size args)
                           (Args.calibration_dir args) (Args.calibration_samples args) w).1
                then register st "static-int8" (static_path_of args) else st))
  ∧ (∀ st name path,
       current_best (register st name path) = path
       ∧ dict_lookup (model_variants (register st name path)) name = Some path)
  ∧ (∀ w st w', main env args w = (Ret st, w') →
       best_is_variant st
       ∧ ∃ size st0 w1 w2,
           step_export env args w = (Ret (size, st0), w1)
           ∧ run_stages env args st0 w1 = (Ret st, w2)).
Proof.
  assert (Hstep : ∀ st w st' w', best_is_variant st →
       step_optimize env args st w = (Ret st', w')
       ∨ step_quantize env args st w = (Ret st', w')
       ∨ step_static_quantize env args st w = (Ret st', w') →
       best_is_variant st').
  { intros st w st' w' Hinv.
    unfold step_optimize, step_quantize, step_static_quantize. cbv zeta.
    rewrite !stage_cases.
    intros [H|[H|H]];
      match type of H with
      | (if ?flag then _ else _) = _ => destruct flag
      end;
      try (injection H as <- <-; exact Hinv);
      match type of H with
      | match ?p with _ => _ end = _ => destruct p as [[[]|e] w1]
      end;
      try discriminate H; injection H as <- <-;
      first [exact Hinv | apply register_best_is_variant]. }
  assert (Hexport : ∀ w size st w', step_export env args w = (Ret (size, st), w') →
     st = PipelineState [("float32", Args.output args)] (Args.output args)
     ∧ best_is_variant st).
  { intros w size st w' H. unfold step_export in H.
    apply bind_ret_inv in H as (model & w1 & _ & H).
    apply bind_ret_inv in H as (file_size & w2 & _ & H).
    injection H as <- <- <-. split; [done|].
    exists "float32". reflexivity. }
  split_and!; [exact Hexport|exact Hstep| | |].
  - intros st w st' w'. unfold step_optimize, step_quantize, step_static_quantize. cbv zeta.
    split_and!; apply stage_result.
  - intros st name path. split; [done|]. apply dict_lookup_set_eq.
  - intros w st w' H. unfold main in H.
    apply bind_ret_inv in H as ([size st0] & w1 & Hexp & H).
    apply bind_ret_inv in H as (st1 & w2 & Hstages & H).
    apply bind_ret_inv in H as ([] & w3 & _ & H). injection H as <- <-.
    split; [|by eauto 10].
    destruct (Hexport _ _ _ _ Hexp) as [_ Hinv0].
    unfold run_stages in Hstages.
    apply bind_ret_inv in Hstages as (sa & wa & Ha & Hstages).
    apply bind_ret_inv in Hstages as (sb & wb & Hb & Hc).
    eapply Hstep; [|right; right; exact Hc].
    eapply Hstep; [|right; left; exact Hb].
    eapply Hstep; [|left; exact Ha]. exact Hinv0.
Qed.

Lemma current_best_tracks_latest_variant_witness :
  ∃ st w', main env_all_ok sample_args empty_world = (Ret st, w')
           ∧ best_is_variant st
           ∧ current_best st = "m_static_int8.onnx".
Proof.
  destruct (main env_all_ok sample_args empty_world) as [res w'] eqn:Hrun.
  assert (Hres : res = Ret (PipelineState
                              [("float32", "m.onnx"); ("optimized", "m_optimized.onnx");
                               ("dynamic-int8", "m_quantized.onnx");
                               ("static-int8", "m_static_int8.onnx")]
                              "m_static_int8.onnx")).
  { change res with (res, w').1. rewrite <- Hrun. vm_compute. reflexivity. }
  subst res. eexists _, w'. split; [reflexivity|]. split; [|reflexivity].
  exact (proj1 (proj2 (proj2 (proj2 (proj2
           (current_best_tracks_latest_variant env_all_ok sample_args)))) _ _ _ Hrun)).
Defined.

(** ** Computations that only read the files *)

Lemma reads_only_bind {A B} (m : M A) (f : A → M B) :
  reads_only m → (∀ a, reads_only (f a)) → reads_only (m ≫= f).
Proof.
  intros Hm Hf w. rewrite run_bind. specialize (Hm w).
  destruct (m w) as [[a|e] w1]; simpl in *; [|done].
  by rewrite Hf.
Qed.

Lemma reads_only_try_except {A} (body : M A) catches handler :
  reads_only body → (∀ e, reads_only (handler e)) → reads_only (try_except body catches handler).
Proof.
  intros Hb Hh w. rewrite run_try_except. specialize (Hb w).
  destruct (body w) as [[a|e] w1]; simpl in *; [done|].
  destruct (catches e); [|done]. by rewrite Hh.
Qed.

Lemma reads_only_fmap {A B} (g : A → B) (m : M A) : reads_only m → reads_only (g <$> m).
Proof.
  intros Hm w. rewrite run_fmap. specialize (Hm w). by destruct (m w) as [[a|e] w1].
Qed.

Lemma reads_only_ret {A} (a : A) : reads_only (mret a).
Proof. done. Qed.

Lemma reads_only_raise {A} e : reads_only (raise e : M A).
Proof. done. Qed.

Lemma reads_only_lift {A} (r : result A) : reads_only (lift_result r).
Proof. done. Qed.

Lemma reads_only_emit ev : reads_only (emit ev).
Proof. done. Qed.

Lemma reads_only_next_tick : reads_only next_tick.
Proof. done. Qed.

Lemma reads_only_get_fs : reads_only get_fs.
Proof. done. Qed.

Lemma reads_only_py_div a b : reads_only (py_div a b).
Proof. intros w. unfold py_div. by case_bool_decide. Qed.

Lemma reads_only_exists path : reads_only (os_path_exists path).
Proof. done. Qed.

Lemma reads_only_getsize path : reads_only (os_path_getsize path).
Proof. intros w. unfold os_path_getsize. munfold. by destruct (fs w !! path). Qed.

Lemma reads_only_first_output o : reads_only (first_output o).
Proof. by destruct o. Qed.

Create HintDb reads_only.
#[local] Hint Resolve reads_only_ret reads_only_raise reads_only_lift reads_only_emit
  reads_only_next_tick reads_only_get_fs reads_only_py_div reads_only_exists
  reads_only_getsize reads_only_first_output reads_only_fmap : reads_only.

Ltac reads_only :=
  repeat first
    [ match goal with
      | |- reads_only (mbind _ _) => apply reads_only_bind
      | |- reads_only (fmap _ _) => apply reads_only_fmap
      | |- reads_only (try_except _ _ _) => apply reads_only_try_except
      | |- ∀ _, _ => intro
      | |- reads_only (match ?x with _ => _ end) => destruct x
      | |- reads_only (if ?x then _ else _) => destruct x
      end
    | solve [auto with reads_only] ].

Lemma reads_only_session env path : reads_only (ort_InferenceSession env path).
Proof. unfold ort_InferenceSession. reads_only. Qed.

Lemma reads_only_session_run env path session x :
  reads_only (call_session_run env path session x).
Proof. unfold call_session_run. reads_only. Qed.

Lemma reads_only_run_repeatedly env n path session x o :
  reads_only (run_repeatedly env n path session x o).
Proof.
  revert o. induction n as [|n IH]; intros o; simpl; [done|].
  apply reads_only_bind; [apply reads_only_session_run|]. intros. apply IH.
Qed.

Lemma reads_only_time env : reads_only (time_time env).
Proof. unfold time_time. reads_only. Qed.

#[local] Hint Resolve reads_only_session reads_only_session_run reads_only_run_repeatedly
  reads_only_time : reads_only.

Lemma reads_only_measure env name path size x n ref :
  reads_only (measure_variant env name path size x n ref).
Proof.
  unfold measure_variant. reads_only.
Qed.

(** ** The calls a computation logs *)

Section Emits.

Context (P : event → Prop).

Lemma emits_silent {A} (m : M A) : (∀ w, trace (m w).2 = trace w) → emits P m.
Proof. intros H w. exists []. by rewrite app_nil_r. Qed.

Lemma emits_bind {A B} (m : M A) (f : A → M B) :
  emits P m → (∀ a, emits P (f a)) → emits P (m ≫= f).
Proof.
  intros Hm Hf w. rewrite run_bind. destruct (Hm w) as (evs1 & Htr1 & Hall1).
  destruct (m w) as [[a|e] w1]; simpl in *; [|by eauto].
  destruct (Hf a w1) as (evs2 & Htr2 & Hall2).
  exists (evs1 ++ evs2). rewrite Htr2, Htr1, <- app_assoc. split; [done|].
  by apply Forall_app.
Qed.

Lemma emits_try_except {A} (body : M A) catches handler :
  emits P body → (∀ e, emits P (handler e)) → emits P (try_except body catches handler).
Proof.
  intros Hb Hh w. rewrite run_try_except. destruct (Hb w) as (evs1 & Htr1 & Hall1).
  destruct (body w) as [[a|e] w1]; simpl in *; [by eauto|].
  destruct (catches e); [|by eauto].
  destruct (Hh e w1) as (evs2 & Htr2 & Hall2).
  exists (evs1 ++ evs2). rewrite Htr2, Htr1, <- app_assoc. split; [done|].
  by apply Forall_app.
Qed.

Lemma emits_fmap {A B} (g : A → B) (m : M A) : emits P m → emits P (g <$> m).
Proof.
  intros Hm w. rewrite run_fmap. destruct (Hm w) as (evs & Htr & Hall).
  destruct (m w) as [[a|e] w1]; eauto.
Qed.

Lemma emits_emit ev : P ev → emits P (emit ev).
Proof. intros H w. exists [ev]. split; [done|]. by constructor. Qed.

Lemma emits_ret {A} (a : A) : emits P (mret a).
Proof. by apply emits_silent. Qed.

Lemma emits_skip : emits P skip.
Proof. by apply emits_silent. Qed.

Lemma emits_raise {A} e : emits P (raise e : M A).
Proof. by apply emits_silent. Qed.

Lemma emits_lift {A} (r : result A) : emits P (lift_result r).
Proof. by apply emits_silent. Qed.

Lemma emits_next_tick : emits P next_tick.
Proof. by apply emits_silent. Qed.

Lemma emits_get_fs : emits P get_fs.
Proof. by apply emits_silent. Qed.

Lemma emits_put_fs f : emits P (put_fs f).
Proof. by apply emits_silent. Qed.

Lemma emits_new_object r : emits P (new_object r).
Proof. by apply emits_silent. Qed.

Lemma emits_deref ref : emits P (deref ref).
Proof. apply emits_silent. intros w. unfold deref. by destruct (heap w !! ref). Qed.

Lemma emits_assign ref r : emits P (assign ref r).
Proof. by apply emits_silent. Qed.

Lemma emits_py_div a b : emits P (py_div a b).
Proof. apply emits_silent. intros w. unfold py_div. by case_bool_decide. Qed.

Lemma emits_py_import env name : emits P (py_import env name).
Proof. apply emits_silent. intros w. unfold py_import. by destruct (importable env name). Qed.

Lemma emits_py_assert c msg : emits P (py_assert c msg).
Proof. apply emits_silent. intros w. by destruct c. Qed.

Lemma emits_first_output o : emits P (first_output o).
Proof. apply emits_silent. intros w. by destruct o. Qed.

End Emits.

Create HintDb emits.
#[local] Hint Resolve emits_ret emits_skip emits_raise emits_lift emits_next_tick emits_get_fs
  emits_put_fs emits_new_object emits_deref emits_assign emits_py_div emits_py_import
  emits_py_assert emits_first_output emits_fmap : emits.

Ltac emits :=
  repeat first
    [ match goal with
      | |- emits _ (mbind _ _) => apply emits_bind
      | |- emits _ (fmap _ _) => apply emits_fmap
      | |- emits _ (try_except _ _ _) => apply emits_try_except
      | |- emits _ (emit _) => apply emits_emit
      | |- ∀ _, _ => intro
      | |- emits _ (match ?x with _ => _ end) => destruct x
      | |- emits _ (if ?x then _ else _) => destruct x
      | |- emits _ (let '(_, _) := ?x in _) => destruct x
      end
    | solve [auto with emits] ].

Section EmitsPrimitives.

Context (P : event → Prop).

Lemma emits_exists path : emits P (os_path_exists path).
Proof. unfold os_path_exists. emits. Qed.

Lemma emits_getsize path : emits P (os_path_getsize path).
Proof. unfold os_path_getsize. emits. Qed.

Lemma emits_write_file path c : emits P (write_file path c).
Proof. unfold write_file. emits. Qed.

Lemma emits_remove path : P (EvRemove path) → emits P (os_remove path).
Proof. intros H. unfold os_remove. emits. Qed.

Lemma emits_copy2 src dst : P (EvCopy src dst) → emits P (shutil_copy2 src dst).
Proof. intros H. unfold shutil_copy2. emits. Qed.

Lemma emits_np_random env dims : emits P (np_random env dims).
Proof. unfold np_random. emits. Qed.

Lemma emits_time env : emits P (time_time env).
Proof. unfold time_time. emits. Qed.

End EmitsPrimitives.

#[local] Hint Resolve emits_exists emits_getsize emits_write_file emits_np_random emits_time
  : emits.

Section EmitsPipeline.

Context (P : event → Prop) (env : Env).
Hypothesis P_library : ∀ ev, is_stage ev = false → is_similarity ev = false → P ev.

Ltac emits_pipeline :=
  repeat first
    [ progress emits
    | match goal with
      | |- emits _ (os_remove _) => apply emits_remove
      | |- emits _ (shutil_copy2 _ _) => apply emits_copy2
      | |- P _ => solve [apply P_library; reflexivity]
      end ].

Lemma emits_session path : emits P (ort_InferenceSession env path).
Proof. unfold ort_InferenceSession. emits. Qed.

Lemma emits_session_run path session x : emits P (call_session_run env path session x).
Proof. unfold call_session_run. emits_pipeline. Qed.

Lemma emits_run_repeatedly n path session x o :
  emits P (run_repeatedly env n path session x o).
Proof.
  revert o. induction n as [|n IH]; intros o; simpl; [apply emits_ret|].
  apply emits_bind; [apply emits_session_run|]. intros. apply IH.
Qed.

Hint Resolve emits_session emits_session_run emits_run_repeatedly : emits.

Lemma emits_measure_variant name path size x n ref :
  ref = None ∨ P (EvSimilarity name) →
  emits P (measure_variant env name path size x n ref).
Proof.
  intros Href. unfold measure_variant. emits_pipeline.
  by destruct Href.
Qed.

Lemma emits_compare_loop items x n ref acc :
  (∀ name, P (EvSimilarity name)) →
  emits P (compare_loop env items x n ref acc).
Proof.
  intros Hsim. revert ref acc. induction items as [|[name path] items IH]; intros ref acc.
  - apply emits_ret.
  - cbn [compare_loop]. emits_pipeline. apply emits_measure_variant. auto.
Qed.

Lemma emits_print_summary rows : emits P (print_summary rows).
Proof. unfold print_summary, size_reduction. emits_pipeline. Qed.

Lemma emits_compare_models paths s n :
  (∀ name, P (EvSimilarity name)) → emits P (compare_models env paths s n).
Proof.
  intros Hsim. unfold compare_models, try_or_return. emits_pipeline.
  - by apply emits_compare_loop.
  - apply emits_print_summary.
Qed.

Lemma emits_check_output out s : emits P (check_output out s).
Proof. unfold check_output, np_min, np_max. emits_pipeline. Qed.

Lemma emits_verify_onnx path s : emits P (verify_onnx env path s).
Proof. unfold verify_onnx, try_or_return. emits_pipeline. apply emits_check_output. Qed.

Lemma emits_report_size_reduction i o : emits P (report_size_reduction i o).
Proof. unfold report_size_reduction, size_reduction. emits_pipeline. Qed.

Lemma emits_optimize_graph i o :
  P (EvStage "optimize_graph" i o) → emits P (optimize_graph env i o).
Proof.
  intros H. unfold optimize_graph, try_return, optimize_with_ort, ort_optimizing_session,
    optimize_with_onnxoptimizer.
  emits_pipeline.
Qed.

Lemma emits_quantize_model i o :
  P (EvStage "quantize_model" i o) → emits P (quantize_model env i o).
Proof.
  intros H. unfold quantize_model, try_or_return. emits_pipeline.
  apply emits_report_size_reduction.
Qed.

Lemma emits_init s dir n : emits P (CalibrationDataReader__init__ env s dir n).
Proof.
  apply emits_silent. intros w.
  destruct (CalibrationDataReader__init__ env s dir n w) as [res w'] eqn:H.
  by apply init_frame in H as (_ & _ & ? & _).
Qed.

Lemma emits_call_quantize_static cfg i o reader :
  emits P (call_quantize_static env cfg i o reader).
Proof. unfold call_quantize_static. emits_pipeline. Qed.

Lemma emits_static_quantize_model i o s dir n :
  P (EvStage "static_quantize_model" i o) → emits P (static_quantize_model env i o s dir n).
Proof.
  intros H. unfold static_quantize_model, try_or_return, preprocess_graph,
    quantize_with_fallback, call_rewind, remove_preprocessed.
  emits_pipeline; first [apply emits_init | apply emits_call_quantize_static
                        | apply emits_report_size_reduction].
Qed.

Lemma emits_generate_model_config o s size : emits P (generate_model_config env o s size).
Proof. unfold generate_model_config. emits_pipeline. Qed.

Lemma emits_deploy_model path dir s : emits P (deploy_model env path dir s).
Proof. unfold deploy_model. emits_pipeline. apply emits_generate_model_config. Qed.

Lemma emits_step_export args : emits P (step_export env args).
Proof. unfold step_export, export_to_onnx. emits_pipeline. Qed.

Lemma emits_step_finish args size st :
  (∀ name, P (EvSimilarity name)) → emits P (step_finish env args size st).
Proof.
  intros Hsim. unfold step_finish. emits_pipeline;
    first [apply emits_verify_onnx | by apply emits_compare_models
          | apply emits_generate_model_config | apply emits_deploy_model].
Qed.

End EmitsPipeline.

(** ** The comparison report *)

Lemma compare_loop_cons env name path rest x n ref acc w :
  compare_loop env ((name, path) :: rest) x n ref acc w
  = match fs w !! path with
    | None => compare_loop env rest x n ref acc w
    | Some content =>
        let size := megabytes (String.length content) in
        match measure_variant env name path size x n ref w with
        | (Ret (row, ref'), w1) => compare_loop env rest x n ref' (acc ++ [row]) w1
        | (Raise e, w1) => compare_loop env rest x n ref (acc ++ [error_row name size e]) w1
        end
    end.
Proof.
  cbn [compare_loop]. rewrite run_bind. unfold os_path_exists at 1. munfold.
  destruct (fs w !! path) as [content|] eqn:Hpath; simpl; [|done].
  rewrite Hpath. simpl.
  by destruct (measure_variant _ _ _ _ _ _ _ _) as [[[row ref']|e] w1].
Qed.

Lemma measure_variant_ret env name path size x n ref w row ref' w1 :
  measure_variant env name path size x n ref w = (Ret (row, ref'), w1) →
  row_name row = name ∧ size_mb row = size
  ∧ match ref with
    | None => similarity row = "reference" ∧ mse row = "reference" ∧ is_Some ref'
    | Some _ => ref' = ref
    end.
Proof.
  unfold measure_variant. intros H.
  apply bind_ret_inv in H as (session & wa & _ & H).
  apply bind_ret_inv in H as (warm & wb & _ & H).
  apply bind_ret_inv in H as (start & wc & _ & H).
  apply bind_ret_inv in H as (outputs & wd & _ & H).
  apply bind_ret_inv in H as (stop & we & _ & H).
  apply bind_ret_inv in H as (per_run & wf & _ & H).
  apply bind_ret_inv in H as (fps & wg & _ & H).
  apply bind_ret_inv in H as (output & wh & _ & H).
  destruct ref as [r|].
  - apply bind_ret_inv in H as ([] & wi & _ & H).
    apply bind_ret_inv in H as ([cos_sim mse_val] & wj & _ & H).
    by injection H as <- <- <-.
  - injection H as <- <- <-. split_and!; eauto.
Qed.

Lemma compare_loop_total env items x n ref acc w :
  ∃ rows w',
    compare_loop env items x n ref acc w = (Ret (acc ++ rows), w')
    ∧ row_name <$> rows = (existing_variants (fs w) items).*1.
Proof.
  revert ref acc w. induction items as [|[name path] items IH]; intros ref acc w.
  - exists [], w. by rewrite app_nil_r.
  - rewrite compare_loop_cons. unfold existing_variants. rewrite filter_cons. simpl.
    destruct (fs w !! path) as [content|] eqn:Hpath.
    + rewrite decide_True by eauto. cbv zeta.
      pose proof (reads_only_measure env name path (megabytes (String.length content))
                    x n ref w) as Hfs.
      destruct (measure_variant _ _ _ _ _ _ _ _) as [[[row ref']|e] w1] eqn:Hm;
        simpl in Hfs.
      * destruct (IH ref' (acc ++ [row]) w1) as (rows & w' & -> & Hnames).
        exists (row :: rows), w'. rewrite <- app_assoc. split; [done|].
        apply measure_variant_ret in Hm as (Hname & _).
        rewrite !fmap_cons. f_equal; [done|].
        rewrite Hnames. unfold existing_variants. by rewrite Hfs.
      * destruct (IH ref (acc ++ [error_row name (megabytes (String.length content)) e]) w1)
          as (rows & w' & -> & Hnames).
        eexists (_ :: rows), w'. rewrite <- app_assoc. split; [done|].
        rewrite !fmap_cons. f_equal.
        rewrite Hnames. unfold existing_variants. by rewrite Hfs.
    + rewrite decide_False by (by intros [? ?]). apply IH.
Qed.

(** C8. With [onnxruntime] installed, [compare_models] draws one test input
    and runs the loop over the variants from an empty report and no reference.
    The loop never raises and writes one entry, in order, for every variant
    whose file exists. A variant whose measurement raises gets the entry with
    latency and rate -1, the text [error: ] followed by the message in place of
    the similarity, and a dash for the error; the loop then goes on with the
    remaining variants and the same reference. The first variant measured
    without an exception becomes the reference: both its similarity fields read
    [reference], and no similarity is computed for it. *)
Theorem compare_models_records_failures (env : Env) (model_paths : list (string * string))
    (image_size num_runs : nat) (w : world) :
  importable env "onnxruntime" = true →
  let test_input :=
    Tensor [1; 3; image_size; image_size]
      (random_values env (tick w) [1; 3; image_size; image_size]) in
  compare_models env model_paths image_size num_runs w
  = (results ← compare_loop env model_paths test_input num_runs None [];
     print_summary results;; mret results)
      (World (fs w) (heap w) (S (tick w)) (trace w))
  ∧ (∀ items ref acc w1, ∃ rows w2,
       compare_loop env items test_input num_runs ref acc w1 = (Ret (acc ++ rows), w2)
       ∧ row_name <$> rows = (existing_variants (fs w1) items).*1)
  ∧ (∀ name path rest ref acc w1 content e w2,
       fs w1 !! path = Some content →
       measure_variant env name path (megabytes (String.length content)) test_input
         num_runs ref w1 = (Raise e, w2) →
       compare_loop env ((name, path) :: rest) test_input num_runs ref acc w1
       = compare_loop env rest test_input num_runs ref
           (acc ++ [ReportRow name (megabytes (String.length content)) (Qc_of_Z (-1))
                      (Qc_of_Z (-1)) ("error: " +:+ exn_msg e) "—"]) w2)
  ∧ (∀ name path rest acc w1 content row ref' w2,
       fs w1 !! path = Some content →
       measure_variant env name path (megabytes (String.length content)) test_input
         num_runs None w1 = (Ret (row, ref'), w2) →
       similarity row = "reference" ∧ mse row = "reference" ∧ is_Some ref'
       ∧ (∃ evs, trace w2 = trace w1 ++ evs ∧ Forall (λ ev, is_similarity ev = false) evs)
       ∧ compare_loop env ((name, path) :: rest) test_input num_runs None acc w1
         = compare_loop env rest test_input num_runs ref' (acc ++ [row]) w2).
Proof.
  intros Himp test_input. split_and!.
  - unfold compare_models, try_or_return, np_random. munfold. rewrite Himp. simpl.
    reflexivity.
  - intros. apply compare_loop_total.
  - intros name path rest ref acc w1 content e w2 Hpath Hm.
    rewrite compare_loop_cons, Hpath. cbv zeta. by rewrite Hm.
  - intros name path rest acc w1 content row ref' w2 Hpath Hm.
    pose proof (measure_variant_ret _ _ _ _ _ _ _ _ _ _ _ Hm) as (_ & _ & Hsim & Hmse & Href).
    split_and!; [done..| |].
    + destruct (emits_measure_variant (λ ev, is_similarity ev = false) env
                  ltac:(done) name path (megabytes (String.length content)) test_input
                  num_runs None ltac:(by left) w1) as (evs & Htr & Hall).
      rewrite Hm in Htr. eauto.
    + rewrite compare_loop_cons, Hpath. cbv zeta. by rewrite Hm.
Qed.

(** ** What the quantisers are given *)

Lemma emits_at_bind (P : event → Prop) {A B} (m : M A) (f : A → M B) w :
  (∃ evs, trace (m w).2 = trace w ++ evs ∧ Forall P evs) →
  (∀ a w1, m w = (Ret a, w1) → ∃ evs, trace (f a w1).2 = trace w1 ++ evs ∧ Forall P evs) →
  ∃ evs, trace ((m ≫= f) w).2 = trace w ++ evs ∧ Forall P evs.
Proof.
  intros (evs1 & Htr1 & Hall1) Hf. rewrite run_bind.
  destruct (m w) as [[a|e] w1]; simpl in *; [|by eauto].
  destruct (Hf a w1 eq_refl) as (evs2 & Htr2 & Hall2).
  exists (evs1 ++ evs2). rewrite Htr2, Htr1, <- app_assoc. split; [done|].
  by apply Forall_app.
Qed.

Lemma step_export_state env args w size st w' :
  step_export env args w = (Ret (size, st), w') →
  st = PipelineState [("float32", Args.output args)] (Args.output args).
Proof.
  intros H. unfold step_export in H.
  apply bind_ret_inv in H as (model & w1 & _ & H).
  apply bind_ret_inv in H as (file_size & w2 & _ & H).
  by injection H as <- <- <-.
Qed.


Lemma compare_models_records_failures_witness :
  importable env_broken_variant "onnxruntime" = true
  ∧ compare_models env_broken_variant two_variants 1 3 world_with_two_variants
    = (results ← compare_loop env_broken_variant two_variants
                   (Tensor [1; 3; 1; 1] (random_values env_broken_variant 0 [1; 3; 1; 1]))
                   3 None [];
       print_summary results;; mret results)
        (World (fs world_with_two_variants) [] 1 [])
  ∧ match (compare_models env_broken_variant two_variants 1 3 world_with_two_variants).1 with
    | Ret rows =>
        row_name <$> rows = ["float32"; "dynamic-int8"]
        ∧ similarity <$> rows = ["reference"; "error: cannot load model"]
    | Raise _ => False
    end.
Proof.
  split; [reflexivity|]. split.
  - exact (proj1 (compare_models_records_failures env_broken_variant two_variants 1 3
                    world_with_two_variants eq_refl)).
  - vm_compute. split; reflexivity.
Defined.


(** C9, at the input where the code departs from it: the command line
    [--output model.bin --optimize --quantize]. The output path does not
    contain [.onnx], so [str.replace] leaves it as it is and the path of the
    optimiser's output is the path of the raw export. The export writes the raw
    graph there, [optimize_graph] writes the optimised graph over it, and
    [quantize_model] is then given that path: the graph that the dynamic
    quantiser reads is the optimiser's output, where the claim, and the comment
    above the call, have it read the raw export. *)
Theorem dynamic_quantizer_reads_optimizer_output :
  let env := env_tagging_quantizer in
  let args := args_bin_optimize_quantize in
  let st0 := PipelineState [("float32", "model.bin")] "model.bin" in
  let w1 := (step_export env args empty_world).2 in
  let w2 := (step_optimize env args st0 w1).2 in
  let w3 := (step_quantize env args (register st0 "optimized" "model.bin") w2).2 in
  optimized_path_of args = Args.output args
  ∧ (step_export env args empty_world).1 = Ret (megabytes 13, st0)
  ∧ fs w1 !! "model.bin" = Some "float32-graph"
  ∧ (step_optimize env args st0 w1).1 = Ret (register st0 "optimized" "model.bin")
  ∧ fs w2 !! "model.bin" = Some "ort-optimized-graph"
  ∧ fs w3 !! "model.bin" = Some "int8 of ort-optimized-graph"
  ∧ (run_stages env args st0 w1).2 = w3
  ∧ trace (main env args empty_world).2
    = [EvStage "optimize_graph" "model.bin" "model.bin";
       EvOrtOptimize "model.bin" "model.bin";
       EvStage "quantize_model" "model.bin" "model.bin";
       EvQuantizeDynamic "model.bin" "model.bin"].
Proof. cbv zeta. split_and!; vm_compute; reflexivity. Qed.

(** * Further properties *)

(** ** Paths derived with [str.replace] *)

Lemma string_app_cons c (a b : string) : String c a +:+ b = String c (a +:+ b).
Proof. reflexivity. Qed.

Lemma string_app_nil_l (b : string) : "" +:+ b = b.
Proof. reflexivity. Qed.

Lemma string_app_length (a b : string) :
  String.length (a +:+ b) = String.length a + String.length b.
Proof.
  induction a as [|c a IH]; [done|].
  rewrite string_app_cons. simpl. by rewrite IH.
Qed.

Lemma string_app_assoc (a b c : string) : (a +:+ b) +:+ c = a +:+ (b +:+ c).
Proof.
  induction a as [|x a IH]; [done|].
  rewrite !string_app_cons. by rewrite IH.
Qed.

Lemma string_app_nil_r (a : string) : a +:+ "" = a.
Proof.
  induction a as [|x a IH]; [done|].
  rewrite string_app_cons. by rewrite IH.
Qed.

Lemma string_app_inv_head (a b c : string) : a +:+ b = a +:+ c → b = c.
Proof.
  induction a as [|x a IH]; [done|].
  rewrite !string_app_cons. intros [= H]. by apply IH.
Qed.

Lemma substring_prefix (p post : string) :
  String.substring 0 (String.length p) (p +:+ post) = p.
Proof.
  induction p as [|c p IH].
  - rewrite string_app_nil_l. by destruct post.
  - rewrite string_app_cons. simpl. by rewrite IH.
Qed.

Lemma is_prefix_spec (p s : string) : is_prefix p s = true ↔ ∃ post, s = p +:+ post.
Proof.
  unfold is_prefix. rewrite bool_decide_eq_true. split.
  - revert s. induction p as [|c p IH]; intros s H.
    + by exists s.
    + destruct s as [|c' s]; simpl in H; [done|].
      injection H as -> H. destruct (IH s H) as [post ->]. by exists post.
  - intros [post ->]. apply substring_prefix.
Qed.

Lemma replace_from_skip_all old new k s :
  String.length s ≤ k → replace_from old new k s = "".
Proof.
  revert k. induction s as [|c s IH]; intros k Hk; [done|].
  simpl in *. destruct k as [|k]; [lia|]. apply IH. lia.
Qed.

Lemma str_replace_absent_id s old new : ¬ occurs old s → str_replace s old new = s.
Proof.
  unfold str_replace. induction s as [|c s IH]; intros Hno; [done|].
  cbn [replace_from].
  destruct (is_prefix old (String c s)) eqn:Hp.
  - exfalso. apply Hno. apply is_prefix_spec in Hp as [post Hp].
    exists "", post. by rewrite Hp.
  - f_equal. apply IH. intros (pre & post & ->). apply Hno.
    by exists (String c pre), post.
Qed.

Lemma str_replace_only_suffix stem old new :
  old ≠ "" → only_suffix old stem → str_replace (stem +:+ old) old new = stem +:+ new.
Proof.
  intros Hold. unfold str_replace. induction stem as [|c stem IH]; intros Honly.
  - rewrite !string_app_nil_l. destruct old as [|c old]; [done|]. cbn [replace_from].
    rewrite (proj2 (is_prefix_spec _ _)) by (exists ""; by rewrite string_app_nil_r).
    rewrite replace_from_skip_all by (simpl; lia). apply string_app_nil_r.
  - rewrite !string_app_cons. cbn [replace_from].
    destruct (is_prefix old (String c (stem +:+ old))) eqn:Hp.
    + apply is_prefix_spec in Hp as [post Hp].
      specialize (Honly "" post). rewrite string_app_cons, string_app_nil_l in Honly.
      by specialize (Honly Hp).
    + f_equal. apply IH. intros pre post H.
      specialize (Honly (String c pre) post). rewrite !string_app_cons in Honly.
      rewrite H in Honly. by injection (Honly eq_refl).
Qed.

Lemma replace_from_length_ge old new k s :
  1 ≤ String.length old → String.length old ≤ String.length new →
  String.length s ≤ String.length (replace_from old new k s) + k.
Proof.
  intros Hlo Hln. revert k. induction s as [|c s IH]; intros k; simpl; [lia|].
  destruct k as [|k].
  - destruct (is_prefix old (String c s)).
    + rewrite string_app_length. specialize (IH (String.length old - 1)). lia.
    + simpl. specialize (IH 0). lia.
  - specialize (IH k). lia.
Qed.

Lemma str_replace_longer s old new :
  1 ≤ String.length old → String.length old < String.length new →
  occurs old s → String.length s < String.length (str_replace s old new).
Proof.
  intros Hlo Hln. unfold str_replace. induction s as [|c s IH]; intros (pre & post & Hs).
  - destruct pre; [destruct old; simpl in *; [lia|done]|done].
  - cbn [replace_from]. destruct (is_prefix old (String c s)) eqn:Hp.
    + rewrite string_app_length.
      pose proof (replace_from_length_ge old new (String.length old - 1) s Hlo) as Hge.
      simpl. lia.
    + simpl. apply -> Nat.succ_lt_mono. apply IH.
      destruct pre as [|c' pre].
      * exfalso. apply not_true_iff_false in Hp. apply Hp, is_prefix_spec.
        exists post. exact Hs.
      * rewrite string_app_cons in Hs. injection Hs as _ ->. by exists pre, post.
Qed.

Lemma occurs_of_replace_changes s old new : str_replace s old new ≠ s → occurs old s.
Proof.
  unfold str_replace. induction s as [|c s IH]; [done|].
  cbn [replace_from]. destruct (is_prefix old (String c s)) eqn:Hp.
  - intros _. apply is_prefix_spec in Hp as [post Hp]. by exists "", post.
  - intros H. destruct IH as (pre & post & ->); [congruence|].
    by exists (String c pre), post.
Qed.

Lemma str_replace_fixed_iff s old new :
  1 ≤ String.length old → String.length old < String.length new →
  str_replace s old new = s ↔ ¬ occurs old s.
Proof.
  intros Hlo Hln. split.
  - intros Heq Hocc. pose proof (str_replace_longer s old new Hlo Hln Hocc) as Hlt.
    rewrite Heq in Hlt. lia.
  - apply str_replace_absent_id.
Qed.


Lemma only_suffix_single_letter : only_suffix ".onnx" "m".
Proof.
  intros pre post H. destruct pre as [|c pre].
  - rewrite string_app_nil_l, !string_app_cons in H. discriminate H.
  - rewrite !string_app_cons in H. injection H as <- H.
    destruct pre as [|c' pre]; [done|].
    apply (f_equal String.length) in H. rewrite !string_app_length in H.
    simpl in H. lia.
Qed.




(** ** The files a computation may change *)

Lemma reads_only_skip : reads_only skip.
Proof. by intros w. Qed.

Lemma reads_only_py_import env name : reads_only (py_import env name).
Proof. intros w. unfold py_import. by destruct (importable env name). Qed.

Lemma reads_only_py_assert c msg : reads_only (py_assert c msg).
Proof. intros w. by destruct c. Qed.

Lemma reads_only_np_random env dims : reads_only (np_random env dims).
Proof. by intros w. Qed.

Lemma reads_only_new_object r : reads_only (new_object r).
Proof. by intros w. Qed.

Lemma reads_only_deref ref : reads_only (deref ref).
Proof. intros w. unfold deref. by destruct (heap w !! ref). Qed.

Lemma reads_only_assign ref r : reads_only (assign ref r).
Proof. by intros w. Qed.

Lemma reads_only_report_size_reduction i o : reads_only (report_size_reduction i o).
Proof. intros w. by rewrite report_size_reduction_world. Qed.

Lemma reads_only_init env s dir n : reads_only (CalibrationDataReader__init__ env s dir n).
Proof.
  intros w. destruct (CalibrationDataReader__init__ env s dir n w) as [res w'] eqn:H.
  by apply init_frame in H as (? & _).
Qed.

#[local] Hint Resolve reads_only_skip reads_only_py_import reads_only_py_assert
  reads_only_np_random reads_only_new_object reads_only_deref reads_only_assign
  reads_only_report_size_reduction reads_only_init : reads_only.

Lemma reads_only_check_output out s : reads_only (check_output out s).
Proof. unfold check_output, np_min, np_max. reads_only. Qed.

#[local] Hint Resolve reads_only_check_output : reads_only.

Lemma reads_only_verify_onnx env path s : reads_only (verify_onnx env path s).
Proof. unfold verify_onnx, try_or_return. reads_only. Qed.

Lemma reads_only_compare_loop env items x n ref acc :
  reads_only (compare_loop env items x n ref acc).
Proof.
  revert ref acc. induction items as [|[name path] items IH]; intros ref acc.
  - apply reads_only_ret.
  - cbn [compare_loop]. reads_only; try apply IH. apply reads_only_measure.
Qed.

Lemma reads_only_print_summary rows : reads_only (print_summary rows).
Proof. unfold print_summary, size_reduction. reads_only. Qed.

Lemma reads_only_compare_models env paths s n : reads_only (compare_models env paths s n).
Proof.
  unfold compare_models, try_or_return. reads_only.
  - apply reads_only_compare_loop.
  - apply reads_only_print_summary.
Qed.


Section TouchesOnly.

Context (paths : string → Prop).

Lemma touches_only_reads {A} (m : M A) : reads_only m → touches_only paths m.
Proof. intros H w p _. by rewrite H. Qed.

Lemma touches_only_bind {A B} (m : M A) (f : A → M B) :
  touches_only paths m → (∀ a, touches_only paths (f a)) → touches_only paths (m ≫= f).
Proof.
  intros Hm Hf w p Hp. rewrite run_bind. specialize (Hm w p Hp).
  destruct (m w) as [[a|e] w1]; simpl in *; [|done].
  by rewrite (Hf a w1 p Hp).
Qed.

Lemma touches_only_try_except {A} (body : M A) catches handler :
  touches_only paths body → (∀ e, touches_only paths (handler e)) →
  touches_only paths (try_except body catches handler).
Proof.
  intros Hm Hh w p Hp. rewrite run_try_except. specialize (Hm w p Hp).
  destruct (body w) as [[a|e] w1]; simpl in *; [done|].
  destruct (catches e); [|done]. by rewrite (Hh e w1 p Hp).
Qed.

Lemma touches_only_fmap {A B} (g : A → B) (m : M A) :
  touches_only paths m → touches_only paths (g <$> m).
Proof.
  intros Hm w p Hp. rewrite run_fmap. specialize (Hm w p Hp).
  by destruct (m w) as [[a|e] w1].
Qed.

Lemma touches_only_write_file path c : paths path → touches_only paths (write_file path c).
Proof.
  intros H w p Hp. munfold. simpl. apply lookup_insert_ne. by intros ->.
Qed.

Lemma touches_only_remove path : paths path → touches_only paths (os_remove path).
Proof.
  intros H w p Hp. munfold. destruct (fs w !! path); simpl; [|done].
  apply lookup_delete_ne. by intros ->.
Qed.

Lemma touches_only_copy2 src dst : paths dst → touches_only paths (shutil_copy2 src dst).
Proof.
  intros H w p Hp. munfold. simpl. destruct (fs w !! src); simpl; [|done].
  case_bool_decide; simpl; [done|]. apply lookup_insert_ne. by intros ->.
Qed.

End TouchesOnly.

Ltac touches_only :=
  repeat first
    [ match goal with
      | |- touches_only _ (mbind _ _) => apply touches_only_bind
      | |- touches_only _ (fmap _ _) => apply touches_only_fmap
      | |- touches_only _ (try_except _ _ _) => apply touches_only_try_except
      | |- touches_only _ (write_file _ _) => apply touches_only_write_file
      | |- touches_only _ (os_remove _) => apply touches_only_remove
      | |- touches_only _ (shutil_copy2 _ _) => apply touches_only_copy2
      | |- ∀ _ : ?T, _ =>
          lazymatch type of T with Prop => fail | _ => intro end
      | |- touches_only _ (match ?x with _ => _ end) => destruct x
      | |- touches_only _ (if ?x then _ else _) => destruct x
      | |- touches_only _ (let '(_, _) := ?x in _) => destruct x
      end
    | solve [apply touches_only_reads; auto with reads_only] ].

Lemma touches_only_optimize_graph env i o :
  touches_only (λ p, p = o) (optimize_graph env i o).
Proof.
  unfold optimize_graph, try_return, optimize_with_ort, ort_optimizing_session,
    optimize_with_onnxoptimizer.
  touches_only; done.
Qed.

Lemma touches_only_quantize_model env i o :
  touches_only (λ p, p = o) (quantize_model env i o).
Proof. unfold quantize_model, try_or_return. touches_only; done. Qed.

Lemma touches_only_static_quantize_model env i o s dir n :
  touches_only (λ p, p = o ∨ p = preprocessed_path_of i)
    (static_quantize_model env i o s dir n).
Proof.
  unfold static_quantize_model, try_or_return, preprocess_graph, quantize_with_fallback,
    call_quantize_static, call_rewind, remove_preprocessed.
  touches_only; auto.
Qed.



(** ** The graph optimiser: which tier produced the output *)



(** ** The two quantisers *)



Lemma megabytes_empty : megabytes 0 = 0%Qc.
Proof. unfold megabytes. simpl. apply Qc_is_canon. reflexivity. Qed.

Lemma report_size_reduction_ret_inv input_path output_path w u w' :
  report_size_reduction input_path output_path w = (Ret u, w') →
  w' = w
  ∧ (∃ content, fs w !! input_path = Some content ∧ content ≠ "")
  ∧ is_Some (fs w !! output_path).
Proof.
  unfold report_size_reduction, size_reduction, py_div. munfold.
  destruct (fs w !! input_path) as [c|] eqn:Hi; [|done]. simpl.
  destruct (fs w !! output_path) as [q|] eqn:Ho; [|done]. simpl.
  case_bool_decide as Hz; [done|]. simpl. intros [= <-].
  split_and!; [done| |by eexists].
  exists c. split; [done|]. intros ->. apply Hz. apply megabytes_empty.
Qed.





(** ** The position of the calibration source *)

Lemma read_position (self : CalibrationDataReader.t) (k : nat) :
  CalibrationDataReader.current self ≤ length (CalibrationDataReader.data self) →
  CalibrationDataReader.current (CalibrationDataReader.read k self)
  = (CalibrationDataReader.current self + k) `min` length (CalibrationDataReader.data self)
  ∧ CalibrationDataReader.data (CalibrationDataReader.read k self)
    = CalibrationDataReader.data self.
Proof.
  revert self. induction k as [|k IH]; intros self Hle.
  - simpl. split; [lia|done].
  - cbn [CalibrationDataReader.read]. unfold CalibrationDataReader.get_next.
    case_bool_decide as Hend; simpl.
    + destruct (IH self Hle) as [-> ->]. split; [lia|done].
    + destruct (IH (CalibrationDataReader.Make (CalibrationDataReader.image_size self)
                      (CalibrationDataReader.num_samples self)
                      (CalibrationDataReader.current self + 1)
                      (CalibrationDataReader.data self))) as [-> ->]; simpl; [lia|].
      split; [lia|done].
Qed.


(** ** Verification stops at the first failing check *)



(** ** Deployment *)

Lemma os_path_join_suffix (a b : string) : ∃ pre, os_path_join a b = pre +:+ b.
Proof.
  unfold os_path_join. destruct (is_prefix "/" b); [by exists ""|].
  destruct (bool_decide (a = "") || ends_with_slash a); [by exists a|].
  exists (a +:+ "/"). by rewrite string_app_assoc.
Qed.

Lemma deploy_config_path_differs (deploy_dir : string) :
  str_replace (os_path_join deploy_dir "nail_segmentation.onnx") ".onnx" "_config.json"
  ≠ os_path_join deploy_dir "nail_segmentation.onnx".
Proof.
  intros Heq. apply str_replace_fixed_iff in Heq; [|simpl; lia..].
  apply Heq. destruct (os_path_join_suffix deploy_dir "nail_segmentation.onnx") as [pre ->].
  exists (pre +:+ "nail_segmentation"), "".
  by rewrite string_app_assoc.
Qed.


